(** * fmriprep/interfaces/cifti.py: assembling a CIFTI dense time series

    A shallow embedding of [GenerateCifti] and [create_cifti_image]:
    the structure catalogue, the per-structure loop that builds the brain
    models and the composite matrix, the space gate of [_fetch_data] and
    the naming of the output file.

    Conventions.
    - Python exceptions are the constructors of [exn]; a computation that
      may raise returns a [result].
    - Reading and writing files goes through a [World] (what each loader
      returns for a path) and is recorded in an event log carried by the
      monad [M].
    - Arrays are a shape together with an accessor; [np.nonzero] lists
      positions in C (row-major) order.
    - Samples of the time series are only copied, never computed with; they
      are integers here. *)

From Stdlib Require Import List ZArith String Ascii Bool Arith Lia Sorted Permutation.
Import ListNotations.
Local Open Scope string_scope.
Local Open Scope list_scope.

(** ** Exceptions and results *)

Inductive exn : Type :=
| NotImplementedError
| IOError
| IndexError
| ValueError
| KeyError
| AttributeError.

Inductive result (A : Type) : Type :=
| Ok (a : A)
| Raise (e : exn).
Arguments Ok {A} a.
Arguments Raise {A} e.

Definition rbind {A B} (r : result A) (k : A -> result B) : result B :=
  match r with
  | Ok a => k a
  | Raise e => Raise e
  end.

Declare Scope result_scope.
Delimit Scope result_scope with res.
Notation "x <- r ;; k" := (rbind r (fun x => k))
  (at level 61, r at next level, right associativity) : result_scope.
Notation "' p <- r ;; k" := (rbind r (fun x => match x with p => k end))
  (at level 61, p pattern, r at next level, right associativity) : result_scope.

(** [[f(x) for x in l]]: the first element that raises ends the comprehension. *)
Fixpoint comprehension {A B} (f : A -> result B) (l : list A) : result (list B) :=
  match l with
  | [] => Ok []
  | x :: r =>
      (y <- f x ;;
       ys <- comprehension f r ;;
       Ok (y :: ys))%res
  end.

(** [l[i]] on a Python list or a one-dimensional array, [i] not negative. *)
Definition getitem {A} (l : list A) (i : nat) : result A :=
  match nth_error l i with
  | Some x => Ok x
  | None => Raise IndexError
  end.

(** [l.index(x)]: position of the first occurrence, [ValueError] when absent. *)
Fixpoint list_index (x : string) (l : list string) : result nat :=
  match l with
  | [] => Raise ValueError
  | y :: r =>
      if String.eqb y x then Ok 0
      else (i <- list_index x r ;; Ok (S i))%res
  end.

(** ** Strings *)

(** [s.split(sep)] for a one-character separator. *)
Fixpoint str_split (sep : ascii) (s : string) : list string :=
  match s with
  | EmptyString => [EmptyString]
  | String c r =>
      if Ascii.eqb c sep then EmptyString :: str_split sep r
      else match str_split sep r with
           | h :: t => String c h :: t
           | [] => [String c EmptyString]
           end
  end.

(** [l[-1]]. *)
Definition getitem_last {A} (l : list A) : result A :=
  getitem l (List.length l - 1).

(** [s[0]] on a string: the one-character string, [IndexError] on [""]. *)
Definition str_first (s : string) : result string :=
  match s with
  | EmptyString => Raise IndexError
  | String c _ => Ok (String c EmptyString)
  end.

(** ** The structure catalogue *)

(** CIFTI structures with corresponding FreeSurfer labels; iterated in the
    order of the literal. *)
Definition CIFTI_STRUCT_WITH_LABELS : list (string * list Z) :=
  [ ("CIFTI_STRUCTURE_CORTEX_LEFT", []);
    ("CIFTI_STRUCTURE_CORTEX_RIGHT", []);
    ("CIFTI_STRUCTURE_ACCUMBENS_LEFT", [26%Z]);
    ("CIFTI_STRUCTURE_ACCUMBENS_RIGHT", [58%Z]);
    ("CIFTI_STRUCTURE_AMYGDALA_LEFT", [18%Z]);
    ("CIFTI_STRUCTURE_AMYGDALA_RIGHT", [54%Z]);
    ("CIFTI_STRUCTURE_BRAIN_STEM", [16%Z]);
    ("CIFTI_STRUCTURE_CAUDATE_LEFT", [11%Z]);
    ("CIFTI_STRUCTURE_CAUDATE_RIGHT", [50%Z]);
    ("CIFTI_STRUCTURE_CEREBELLUM_LEFT", [6%Z]);
    ("CIFTI_STRUCTURE_CEREBELLUM_RIGHT", [45%Z]);
    ("CIFTI_STRUCTURE_DIENCEPHALON_VENTRAL_LEFT", [28%Z]);
    ("CIFTI_STRUCTURE_DIENCEPHALON_VENTRAL_RIGHT", [60%Z]);
    ("CIFTI_STRUCTURE_HIPPOCAMPUS_LEFT", [17%Z]);
    ("CIFTI_STRUCTURE_HIPPOCAMPUS_RIGHT", [53%Z]);
    ("CIFTI_STRUCTURE_PALLIDUM_LEFT", [13%Z]);
    ("CIFTI_STRUCTURE_PALLIDUM_RIGHT", [52%Z]);
    ("CIFTI_STRUCTURE_PUTAMEN_LEFT", [12%Z]);
    ("CIFTI_STRUCTURE_PUTAMEN_RIGHT", [51%Z]);
    ("CIFTI_STRUCTURE_THALAMUS_LEFT", [10%Z]);
    ("CIFTI_STRUCTURE_THALAMUS_RIGHT", [49%Z]) ].

(** [hemi = structure.split('_')[-1][0]] *)
Definition hemi_of (structure : string) : result string :=
  (last_word <- getitem_last (str_split "_"%char structure) ;;
   str_first last_word)%res.

(** [files[hemi == "RIGHT"]]: a list indexed by a bool, [False] is 0 and
    [True] is 1. *)
Definition hemi_position (hemi : string) : nat :=
  if String.eqb hemi "RIGHT" then 1 else 0.

Definition hemi_file (files : list string) (hemi : string) : result string :=
  getitem files (hemi_position hemi).

(** ** Arrays and images *)

Definition scalar : Type := Z.

(** What [nb.freesurfer.read_annot] returns: [annot[0]] the class of every
    vertex, [annot[1]] the colour table, [annot[2]] the names. *)
Record Annotation : Type := {
  annot_labels : list Z;
  annot_ctab : list (list Z);
  annot_names : list string
}.

(** A GIFTI time series: one data array per frame. *)
Record GiftiImage : Type := {
  darrays : list (list scalar)
}.

(** The label atlas: a three-dimensional integer array. *)
Record LabelVolume : Type := {
  shape3 : nat * nat * nat;
  at3 : nat -> nat -> nat -> Z
}.

(** The BOLD image: a four-dimensional array and its affine. *)
Record BoldImage : Type := {
  shape4 : nat * nat * nat * nat;
  at4 : nat -> nat -> nat -> nat -> scalar;
  affine : list (list scalar)
}.

Definition spatial_shape (b : BoldImage) : nat * nat * nat :=
  let '(b0, b1, b2, _) := shape4 b in (b0, b1, b2).

(** [bold_img.shape[3]] *)
Definition timepoints_of (b : BoldImage) : nat :=
  let '(_, _, _, t) := shape4 b in t.

(** A two-dimensional array: the number of columns is kept beside the rows
    so that the shapes [(t, 0)] and [(0, n)] are told apart. *)
Record Matrix : Type := {
  ncols : nat;
  rows : list (list scalar)
}.

Definition nrows (m : Matrix) : nat := List.length (rows m).

(** [np.empty((t, 0))] *)
Definition np_empty (t : nat) : Matrix :=
  {| ncols := 0; rows := repeat [] t |}.

(** [np.array(l)] of equally long rows, as [np.column_stack] sees it: the
    empty list is a one-dimensional array of shape [(0,)], which
    [column_stack] turns into a single column of shape [(0, 1)]. *)
Definition np_array_2d (width : nat) (l : list (list scalar)) : Matrix :=
  match l with
  | [] => {| ncols := 1; rows := [] |}
  | _ => {| ncols := width; rows := l |}
  end.

Fixpoint zip_rows (a b : list (list scalar)) : list (list scalar) :=
  match a, b with
  | ra :: a', rb :: b' => (ra ++ rb) :: zip_rows a' b'
  | _, _ => []
  end.

(** [np.column_stack((a, b))] of two-dimensional arrays: the row counts
    must agree. *)
Definition np_column_stack (a b : Matrix) : result Matrix :=
  if Nat.eqb (nrows a) (nrows b)
  then Ok {| ncols := ncols a + ncols b; rows := zip_rows (rows a) (rows b) |}
  else Raise ValueError.

(** [np.nonzero(p(arr))[0]] on a one-dimensional array. *)
Fixpoint nonzero_from {A} (p : A -> bool) (l : list A) (i : nat) : list nat :=
  match l with
  | [] => []
  | x :: r =>
      if p x then i :: nonzero_from p r (S i) else nonzero_from p r (S i)
  end.

Definition np_nonzero1 {A} (p : A -> bool) (l : list A) : list nat :=
  nonzero_from p l 0.

(** [data[idx]] with an index array. *)
Definition take (data : list scalar) (idx : list nat) : result (list scalar) :=
  comprehension (getitem data) idx.

(** All positions of a three-dimensional array, last axis fastest. *)
Definition coords3 (shape : nat * nat * nat) : list (nat * nat * nat) :=
  let '(d0, d1, d2) := shape in
  flat_map (fun i =>
    flat_map (fun j =>
      map (fun k => (i, j, k)) (seq 0 d2)) (seq 0 d1)) (seq 0 d0).

Definition label_is (l : LabelVolume) (label : Z) (c : nat * nat * nat) : bool :=
  let '(i, j, k) := c in Z.eqb (at3 l i j k) label.

(** [np.nonzero(label_data == label)]: the three index arrays, kept as one
    list of triples. *)
Definition np_nonzero3 (l : LabelVolume) (label : Z) : list (nat * nat * nat) :=
  filter (label_is l label) (coords3 (shape3 l)).

Definition in_bounds3 (b : BoldImage) (c : nat * nat * nat) : bool :=
  let '(i, j, k) := c in
  let '(b0, b1, b2) := spatial_shape b in
  Nat.ltb i b0 && Nat.ltb j b1 && Nat.ltb k b2.

Definition series_at (b : BoldImage) (c : nat * nat * nat) : list scalar :=
  let '(i, j, k) := c in map (at4 b i j k) (seq 0 (timepoints_of b)).

(** [bold_data[ijk]]: one row of [timepoints] samples per indexed voxel;
    numpy checks every index against the axis it addresses. *)
Definition bold_getitem (b : BoldImage) (ijk : list (nat * nat * nat))
  : result (list (list scalar)) :=
  comprehension
    (fun c => if in_bounds3 b c then Ok (series_at b c) else Raise IndexError)
    ijk.

(** ** CIFTI header records *)

Inductive ModelType : Type :=
| CIFTI_MODEL_TYPE_VOXELS
| CIFTI_MODEL_TYPE_SURFACE.

Record Cifti2BrainModel : Type := {
  index_offset : nat;
  index_count : nat;
  model_type : ModelType;
  brain_structure : string;
  vertex_indices : option (list nat);
  voxel_indices_ijk : option (list (nat * nat * nat));
  surface_number_of_vertices : option nat
}.

Record Cifti2Volume : Type := {
  volume_dimensions : nat * nat * nat;
  transform_exponent : Z;
  transform_matrix : list (list scalar)
}.

Inductive Cifti2Map : Type :=
| BrainModelMap (bm : Cifti2BrainModel)
| VolumeMap (v : Cifti2Volume).

Record SeriesMap : Type := {
  number_of_series_points : nat;
  series_exponent : Z;
  series_start : scalar;
  series_step : scalar;
  series_unit : string
}.

Record Cifti2Image : Type := {
  dataobj : Matrix;
  series_map : SeriesMap;
  geometry_maps : list Cifti2Map;
  metadata : list (string * option string);
  intent : string
}.

(** ** Surface extraction (the body of the surface branch up to [ts]) *)

Definition differs_from (u : nat) (c : Z) : bool :=
  negb (Z.eqb c (Z.of_nat u)).

Definition surface_extract (annot : Annotation) (gii : GiftiImage)
  : result (nat * list nat * list (list scalar)) :=
  let surf_verts := List.length (annot_labels annot) in
  (u <- list_index "unknown" (annot_names annot) ;;
   let vert_idx := np_nonzero1 (differs_from u) (annot_labels annot) in
   ts <- comprehension (fun tsarr => take tsarr vert_idx) (darrays gii) ;;
   Ok (surf_verts, vert_idx, ts))%res.

(** ** Volume extraction (the loop over the labels of one structure) *)

(** [bold_data[np.nonzero(label_data == label)]]: the series of the voxels
    that carry [label]. *)
Definition label_lookup (l : LabelVolume) (b : BoldImage) (label : Z)
  : result (list (list scalar)) :=
  bold_getitem b (np_nonzero3 l label).

(** One pass of [for label in labels]: [ts] is the Python list the blocks
    are appended to, and the comprehension over [enumerate(ts)] takes one
    coordinate per element of that list. *)
Definition label_pass (l : LabelVolume) (b : BoldImage) (label : Z)
  (acc : list (nat * nat * nat) * list (list (list scalar)))
  : result (list (nat * nat * nat) * list (list (list scalar))) :=
  let '(vox, ts) := acc in
  let ijk := np_nonzero3 l label in
  (block <- label_lookup l b label ;;
   let ts' := ts ++ [block] in
   picked <- comprehension (getitem ijk) (seq 0 (List.length ts')) ;;
   Ok (vox ++ picked, ts'))%res.

Fixpoint label_loop (l : LabelVolume) (b : BoldImage) (labels : list Z)
  (acc : list (nat * nat * nat) * list (list (list scalar)))
  : result (list (nat * nat * nat) * list (list (list scalar))) :=
  match labels with
  | [] => Ok acc
  | label :: rest =>
      (acc' <- label_pass l b label acc ;;
       label_loop l b rest acc')%res
  end.

(** [ts.T] where [ts] is a Python list: lists have no attribute [T]. *)
Definition list_T {A} (ts : list A) : result Matrix :=
  Raise AttributeError.

(** ** The world and the effect monad *)

(** What the loaders return for a path, and what the data getters of
    niworkflows provide. [nb.load] stands in three fields, one per kind of
    file the function opens with it. *)
Record World : Type := {
  nb_load_bold : string -> result BoldImage;
  nb_load_label : string -> result LabelVolume;
  nb_load_gifti : string -> result GiftiImage;
  read_annot : string -> result Annotation;
  glob : string -> list string;
  get_dataset : string -> result string;
  OSF_PROJECT_URL : string;
  OSF_RESOURCES : string -> option (list string);
  writable : string -> bool
}.

Inductive event : Type :=
| Globbed (pattern : string)
| DatasetFetched (name : string)
| Loaded (path : string)
| AnnotRead (path : string)
| Saved (path : string) (img : Cifti2Image).

(** A computation reads and extends the log of what was done so far. *)
Definition M (A : Type) : Type := list event -> list event * result A.

Definition mret {A} (a : A) : M A := fun log => (log, Ok a).

Definition mraise {A} (e : exn) : M A := fun log => (log, Raise e).

Definition mbind {A B} (m : M A) (k : A -> M B) : M B :=
  fun log =>
    match m log with
    | (log', Ok a) => k a log'
    | (log', Raise e) => (log', Raise e)
    end.

Definition lift {A} (r : result A) : M A := fun log => (log, r).

Definition perform {A} (ev : event) (r : result A) : M A :=
  fun log => (log ++ [ev], r).

Declare Scope M_scope.
Delimit Scope M_scope with M.
Notation "x <- m ;; k" := (mbind m (fun x => k))
  (at level 61, m at next level, right associativity) : M_scope.
Notation "' p <- m ;; k" := (mbind m (fun x => match x with p => k end))
  (at level 61, p pattern, m at next level, right associativity) : M_scope.

(** ** The loop over the structures *)

(** The variables the loop of [create_cifti_image] updates. [model_type] is
    one of them: it is assigned before the loop and again in the surface
    branch. *)
Record LoopState : Type := {
  idx_offset : nat;
  brainmodels : list Cifti2BrainModel;
  bm_ts : Matrix;
  cur_model_type : ModelType
}.

Definition surface_branch (w : World) (annotation_files gii_files : list string)
  (structure : string) (st : LoopState) : M LoopState :=
  let mt := CIFTI_MODEL_TYPE_SURFACE in
  (hemi <- lift (hemi_of structure) ;;
   annot_path <- lift (hemi_file annotation_files hemi) ;;
   annot <- perform (AnnotRead annot_path) (read_annot w annot_path) ;;
   gii_path <- lift (hemi_file gii_files hemi) ;;
   gii <- perform (Loaded gii_path) (nb_load_gifti w gii_path) ;;
   ' (surf_verts, vert_idx, ts) <- lift (surface_extract annot gii) ;;
   let bm := {| index_offset := idx_offset st;
                index_count := List.length vert_idx;
                model_type := mt;
                brain_structure := structure;
                vertex_indices := Some vert_idx;
                voxel_indices_ijk := None;
                surface_number_of_vertices := Some surf_verts |} in
   stacked <- lift (np_column_stack (bm_ts st)
                      (np_array_2d (List.length vert_idx) ts)) ;;
   mret {| idx_offset := idx_offset st + List.length vert_idx;
           brainmodels := brainmodels st ++ [bm];
           bm_ts := stacked;
           cur_model_type := mt |})%M.

(** The brain model the volume branch constructs from [vox]. *)
Definition volume_brainmodel (st : LoopState) (structure : string)
  (vox : list (nat * nat * nat)) : Cifti2BrainModel :=
  {| index_offset := idx_offset st;
     index_count := List.length vox;
     model_type := cur_model_type st;
     brain_structure := structure;
     vertex_indices := None;
     voxel_indices_ijk := Some vox;
     surface_number_of_vertices := None |}.

Definition volume_branch (label_data : LabelVolume) (bold_data : BoldImage)
  (structure : string) (labels : list Z) (st : LoopState) : result LoopState :=
  (' (vox, ts) <- label_loop label_data bold_data labels ([], []) ;;
   ts_T <- list_T ts ;;
   stacked <- np_column_stack (bm_ts st) ts_T ;;
   let bm := volume_brainmodel st structure vox in
   Ok {| idx_offset := idx_offset st + List.length vox;
         brainmodels := brainmodels st ++ [bm];
         bm_ts := stacked;
         cur_model_type := cur_model_type st |})%res.

Definition loop_body (w : World) (annotation_files gii_files : list string)
  (label_data : LabelVolume) (bold_data : BoldImage)
  (entry : string * list Z) (st : LoopState) : M LoopState :=
  let '(structure, labels) := entry in
  match labels with
  | [] => surface_branch w annotation_files gii_files structure st
  | _ => lift (volume_branch label_data bold_data structure labels st)
  end.

Fixpoint structures_loop (w : World) (annotation_files gii_files : list string)
  (label_data : LabelVolume) (bold_data : BoldImage)
  (registry : list (string * list Z)) (st : LoopState) : M LoopState :=
  match registry with
  | [] => mret st
  | entry :: rest =>
      (st' <- loop_body w annotation_files gii_files label_data bold_data entry st ;;
       structures_loop w annotation_files gii_files label_data bold_data rest st')%M
  end.

Definition initial_state (timepoints : nat) : LoopState :=
  {| idx_offset := 0;
     brainmodels := [];
     bm_ts := np_empty timepoints;
     cur_model_type := CIFTI_MODEL_TYPE_VOXELS |}.

(** ** Paths *)

(** Paths are byte strings; the functions below work on their characters. *)
Definition chars (s : string) : list ascii := list_ascii_of_string s.
Definition str (l : list ascii) : string := string_of_list_ascii l.

Definition is_sep (c : ascii) : bool := Ascii.eqb c "/"%char.
Definition is_dot (c : ascii) : bool := Ascii.eqb c "."%char.

(** [l.rfind(c) + 1]: 0 when [c] does not occur. *)
Fixpoint rfind_succ (p : ascii -> bool) (l : list ascii) : nat :=
  match l with
  | [] => 0
  | x :: r =>
      match rfind_succ p r with
      | 0 => if p x then 1 else 0
      | S n => S (S n)
      end
  end.

(** [l.rstrip(c)] *)
Fixpoint rstrip (p : ascii -> bool) (l : list ascii) : list ascii :=
  match l with
  | [] => []
  | x :: r =>
      match rstrip p r with
      | [] => if p x then [] else [x]
      | r' => x :: r'
      end
  end.

(** [posixpath.basename] *)
Definition basename_chars (l : list ascii) : list ascii :=
  skipn (rfind_succ is_sep l) l.

Definition posix_basename (p : string) : string := str (basename_chars (chars p)).

(** [posixpath.dirname] *)
Definition dirname_chars (l : list ascii) : list ascii :=
  let head := firstn (rfind_succ is_sep l) l in
  match head with
  | [] => head
  | _ => if forallb is_sep head then head else rstrip is_sep head
  end.

Definition posix_dirname (p : string) : string := str (dirname_chars (chars p)).

(** [posixpath.splitext]: the extension starts at the last dot, unless only
    dots precede it in the last component. *)
Definition splitext_chars (l : list ascii) : list ascii * list ascii :=
  let s := rfind_succ is_sep l in
  let d := rfind_succ is_dot l in
  if Nat.ltb s d then
    let dot_index := d - 1 in
    if existsb (fun c => negb (is_dot c)) (firstn (dot_index - s) (skipn s l))
    then (firstn dot_index l, skipn dot_index l)
    else (l, [])
  else (l, []).

(** [c.lower()] on an ASCII letter. *)
Definition lower_char (c : ascii) : ascii :=
  let n := nat_of_ascii c in
  if Nat.leb 65 n && Nat.leb n 90 then ascii_of_nat (n + 32) else c.

Definition lower (l : list ascii) : list ascii := map lower_char l.

(** [l[-n:]] for [0 < n]. *)
Definition last_n (n : nat) (l : list ascii) : list ascii :=
  skipn (List.length l - n) l.

(** [l[:-n]] for [0 < n]. *)
Definition drop_last_n (n : nat) (l : list ascii) : list ascii :=
  firstn (List.length l - n) l.

Definition special_extensions : list string := [".nii.gz"; ".tar.gz"].

Fixpoint strip_special (fname : list ascii) (exts : list string)
  : option (list ascii * list ascii) :=
  match exts with
  | [] => None
  | special_ext :: rest =>
      let ext_len := String.length special_ext in
      if Nat.ltb ext_len (List.length fname)
         && String.eqb (str (lower (last_n ext_len fname)))
                       (str (lower (chars special_ext)))
      then Some (drop_last_n ext_len fname, last_n ext_len fname)
      else strip_special fname rest
  end.

(** Modelled from the spec: [split_filename] is imported from the nipype
    copy of niworkflows, which is not under src/. The spec only says that
    the output is named after the input's base name; this is nipype's
    function on POSIX paths: directory, base name without extension,
    extension, with [.nii.gz] and [.tar.gz] taken as one extension. *)
Definition split_filename (fname : string) : string * string * string :=
  let pth := posix_dirname fname in
  let base := basename_chars (chars fname) in
  match strip_special base special_extensions with
  | Some (f, ext) => (pth, str f, str ext)
  | None => let '(f, ext) := splitext_chars base in (pth, str f, str ext)
  end.

Definition ends_with_sep (s : string) : bool :=
  match rev (chars s) with
  | c :: _ => is_sep c
  | [] => false
  end.

Definition join2 (path b : string) : string :=
  if String.prefix "/" b then b
  else if String.eqb path "" || ends_with_sep path then String.append path b
  else String.append path (String.append "/" b).

(** [os.path.join(a, *ps)] *)
Definition os_path_join (a : string) (ps : list string) : string :=
  fold_left join2 ps a.

(** [sorted] on a list of strings. *)
Fixpoint insert_sorted (s : string) (l : list string) : list string :=
  match l with
  | [] => [s]
  | x :: r => if String.ltb s x then s :: l else x :: insert_sorted s r
  end.

Definition sorted (l : list string) : list string :=
  fold_left (fun acc s => insert_sorted s acc) l [].

(** ** [create_cifti_image] *)

Definition ci_save (w : World) (img : Cifti2Image) (path : string) : M unit :=
  fun log =>
    if writable w path then (log ++ [Saved path img], Ok tt)
    else (log, Raise IOError).

(** The base name the output is derived from. *)
Definition out_file_of (bold_file : string) : string :=
  let '(_, out_file, _) := split_filename bold_file in out_file.

(** ["{}.dtseries.nii".format(out_file)] *)
Definition dtseries_name (out_file : string) : string :=
  String.append out_file ".dtseries.nii".

(** [create_cifti_image] with the catalogue it iterates as an argument. *)
Definition create_cifti_image_over (registry : list (string * list Z))
  (w : World) (bold_file label_file : string)
  (annotation_files gii_files : list string)
  (volume_target surface_target : string) (tr : scalar)
  (download_link : option string) : M string :=
  (bold_img <- perform (Loaded bold_file) (nb_load_bold w bold_file) ;;
   let bold_data := bold_img in
   let timepoints := timepoints_of bold_img in
   label_data <- perform (Loaded label_file) (nb_load_label w label_file) ;;
   let series :=
     {| number_of_series_points := timepoints;
        series_exponent := 0;
        series_start := 0%Z;
        series_step := tr;
        series_unit := "SECOND" |} in
   st <- structures_loop w annotation_files gii_files label_data bold_data
           registry (initial_state timepoints) ;;
   let volume :=
     {| volume_dimensions := spatial_shape bold_img;
        transform_exponent := (-3)%Z;
        transform_matrix := affine bold_img |} in
   let maps := map BrainModelMap (brainmodels st) ++ [VolumeMap volume] in
   let meta :=
     [ ("target_surface", Some surface_target);
       ("target_volume", Some volume_target);
       ("download_link", download_link) ] in
   let img :=
     {| dataobj := bm_ts st;
        series_map := series;
        geometry_maps := maps;
        metadata := meta;
        intent := "NIFTI_INTENT_CONNECTIVITY_DENSE_SERIES" |} in
   let out_file := out_file_of bold_file in
   _ <- ci_save w img (dtseries_name out_file) ;;
   mret out_file)%M.

Definition create_cifti_image : World -> string -> string ->
  list string -> list string -> string -> string -> scalar ->
  option string -> M string :=
  create_cifti_image_over CIFTI_STRUCT_WITH_LABELS.

(** ** [GenerateCifti] *)

Record GenerateCiftiInputs : Type := {
  bold_file : string;
  volume_target : string;
  surface_target : string;
  subjects_dir : string;
  TR : scalar;
  gifti_files : list string
}.

(** The values the two [traits.Enum] declarations list. *)
Definition volume_target_values : list string := ["MNI152NLin2009cAsym"].
Definition surface_target_values : list string :=
  ["fsaverage5"; "fsaverage6"; "fsaverage"].

(** The test that opens [_fetch_data]. *)
Definition space_unsupported (inputs : GenerateCiftiInputs) : bool :=
  String.eqb (surface_target inputs) "fsnative"
  || negb (String.eqb (volume_target inputs) "MNI152NLin2009cAsym").

Definition label_atlas_name : string :=
  "OASIS-TRT-20_jointfusion_DKT31_CMA_labels_in_MNI152NLin2009cAsym_2mm_v2.nii.gz".

Definition _fetch_data (w : World) (inputs : GenerateCiftiInputs)
  : M (list string * string * string) :=
  if space_unsupported inputs then mraise NotImplementedError
  else
    let pattern := os_path_join (subjects_dir inputs)
                     [surface_target inputs; "label"; "*h.aparc.annot"] in
    (found <- perform (Globbed pattern) (Ok (glob w pattern)) ;;
     let annotation_files := sorted found in
     match annotation_files with
     | [] => mraise IOError
     | _ =>
         let label_space := "oasis_dkt31_mni152" in
         label_template <- perform (DatasetFetched label_space)
                             (get_dataset w label_space) ;;
         let label_file := os_path_join label_template [label_atlas_name] in
         resources <- lift (match OSF_RESOURCES w label_space with
                            | Some t => Ok t
                            | None => Raise KeyError
                            end) ;;
         resource <- lift (getitem resources 0) ;;
         let download_link :=
           String.append (OSF_PROJECT_URL w) (String.append "/" resource) in
         mret (annotation_files, label_file, download_link)
     end)%M.

Definition _run_interface (w : World) (inputs : GenerateCiftiInputs) : M string :=
  (' (annotation_files, label_file, download_link) <- _fetch_data w inputs ;;
   create_cifti_image w (bold_file inputs) label_file annotation_files
     (gifti_files inputs) (volume_target inputs) (surface_target inputs)
     (TR inputs) (Some download_link))%M.

(** ** The composite index *)

(** The entries start where the previous one ended, the first at [start]. *)
Fixpoint offsets_chain (start : nat) (bms : list Cifti2BrainModel) : Prop :=
  match bms with
  | [] => True
  | bm :: rest =>
      index_offset bm = start /\ offsets_chain (start + index_count bm) rest
  end.

Definition total_count (bms : list Cifti2BrainModel) : nat :=
  list_sum (map index_count bms).

(** Column [c] of the composite index falls in the range of entry [n]. *)
Definition covers (bms : list Cifti2BrainModel) (n c : nat) : Prop :=
  exists bm, nth_error bms n = Some bm /\
             index_offset bm <= c < index_offset bm + index_count bm.

Definition saved_paths (log : list event) : list string :=
  flat_map (fun ev => match ev with Saved p _ => [p] | _ => [] end) log.


(** [u] is what [annot[2].index(b'unknown')] evaluates to. *)
Definition unknown_code (annot : Annotation) (u : nat) : Prop :=
  nth_error (annot_names annot) u = Some "unknown" /\
  forall j, j < u -> nth_error (annot_names annot) j <> Some "unknown".

(** Vertex [v] exists and its class is not the class [u]. *)
Definition retained (annot : Annotation) (u v : nat) : Prop :=
  exists c, nth_error (annot_labels annot) v = Some c /\ c <> Z.of_nat u.

(** A computation that only adds to the log, and saves nothing. *)
Definition quiet {A} (m : M A) : Prop :=
  forall log, exists d, fst (m log) = log ++ d /\ saved_paths d = [].

(** Every row of the array has as many cells as the shape says. *)
Definition well_shaped (m : Matrix) : Prop :=
  Forall (fun r => List.length r = ncols m) (rows m).

(** The vertex indices a brain model lists, none for a voxel model. *)
Definition vertex_list (bm : Cifti2BrainModel) : list nat :=
  match vertex_indices bm with
  | Some vs => vs
  | None => []
  end.

(** The order [sorted] puts strings in. *)
Definition str_le (a b : string) : Prop := String.leb a b = true.

(** ** A small data set *)

Module Demo.

Definition names : list string :=
  ["unknown"; "bankssts"; "caudalanteriorcingulate"].

Definition lh_annot : Annotation :=
  {| annot_labels := [1; 0; 2; 0; 1]%Z; annot_ctab := []; annot_names := names |}.

Definition rh_annot : Annotation :=
  {| annot_labels := [0; 0; 2; 1; 1]%Z; annot_ctab := []; annot_names := names |}.

Definition lh_gii : GiftiImage :=
  {| darrays := [[10; 11; 12; 13; 14]; [20; 21; 22; 23; 24]]%Z |}.

Definition rh_gii : GiftiImage :=
  {| darrays := [[30; 31; 32; 33; 34]; [40; 41; 42; 43; 44]]%Z |}.

(** Two voxels, two frames. *)
Definition bold : BoldImage :=
  {| shape4 := (1, 1, 2, 2);
     at4 := fun i j k t => Z.of_nat (100 + 10 * k + t);
     affine := [[2; 0; 0; 0]; [0; 2; 0; 0]; [0; 0; 2; 0]; [0; 0; 0; 1]]%Z |}.

(** Both voxels carry label 26. *)
Definition atlas : LabelVolume :=
  {| shape3 := (1, 1, 2); at3 := fun _ _ _ => 26%Z |}.

Definition label_file : string :=
  String.append "/atlas/" label_atlas_name.

Definition pick {A} (table : list (string * A)) (path : string) : result A :=
  match find (fun e => String.eqb (fst e) path) table with
  | Some e => Ok (snd e)
  | None => Raise IOError
  end.

Definition world : World :=
  {| nb_load_bold := pick [("/data/sub-01_bold.nii.gz", bold)];
     nb_load_label := pick [(label_file, atlas)];
     nb_load_gifti := pick [("lh.func.gii", lh_gii); ("rh.func.gii", rh_gii)];
     read_annot := pick [("lh.aparc.annot", lh_annot); ("rh.aparc.annot", rh_annot)];
     glob := fun _ => ["rh.aparc.annot"; "lh.aparc.annot"];
     get_dataset := fun _ => Ok "/atlas";
     OSF_PROJECT_URL := "https://files.osf.io/v1/resources/fvuh8/providers/osfstorage";
     OSF_RESOURCES := fun _ => Some ["5b0dbce20f461a000db8fa3d"; "md5"];
     writable := fun _ => true |}.

Definition annotation_files : list string := ["lh.aparc.annot"; "rh.aparc.annot"].
Definition gii_files : list string := ["lh.func.gii"; "rh.func.gii"].

(** The two cortex entries that open the catalogue. *)
Definition cortex_only : list (string * list Z) :=
  firstn 2 CIFTI_STRUCT_WITH_LABELS.

(** The loop's variables after these two entries. *)
Definition cortex_state : LoopState :=
  {| idx_offset := 6;
     brainmodels :=
       [ {| index_offset := 0;
            index_count := 3;
            model_type := CIFTI_MODEL_TYPE_SURFACE;
            brain_structure := "CIFTI_STRUCTURE_CORTEX_LEFT";
            vertex_indices := Some [0; 2; 4];
            voxel_indices_ijk := None;
            surface_number_of_vertices := Some 5 |};
         {| index_offset := 3;
            index_count := 3;
            model_type := CIFTI_MODEL_TYPE_SURFACE;
            brain_structure := "CIFTI_STRUCTURE_CORTEX_RIGHT";
            vertex_indices := Some [0; 2; 4];
            voxel_indices_ijk := None;
            surface_number_of_vertices := Some 5 |} ];
     bm_ts :=
       {| ncols := 6;
          rows := [[10; 12; 14; 10; 12; 14]; [20; 22; 24; 20; 22; 24]]%Z |};
     cur_model_type := CIFTI_MODEL_TYPE_SURFACE |}.

Definition cortex_log : list event :=
  [ AnnotRead "lh.aparc.annot"; Loaded "lh.func.gii";
    AnnotRead "lh.aparc.annot"; Loaded "lh.func.gii" ].

(** One vertex, and a time series with two values per frame. *)
Definition short_annot : Annotation :=
  {| annot_labels := [1]%Z; annot_ctab := [];
     annot_names := ["unknown"; "bankssts"] |}.

Definition long_gii : GiftiImage := {| darrays := [[5; 6]]%Z |}.

(** An atlas one voxel longer than the BOLD image; the voxels that
    carry 26 lie inside the image. *)
Definition wide_atlas : LabelVolume :=
  {| shape3 := (1, 1, 3);
     at3 := fun _ _ k => if Nat.ltb k 2 then 26%Z else 0%Z |}.

Definition inputs_for (surface : string) : GenerateCiftiInputs :=
  {| bold_file := "/data/sub-01_bold.nii.gz";
     volume_target := "MNI152NLin2009cAsym";
     surface_target := surface;
     subjects_dir := "/subjects";
     TR := 2%Z;
     gifti_files := gii_files |}.

Definition inputs : GenerateCiftiInputs := inputs_for "fsaverage5".

(** The same files, and a subjects directory without annotations. *)
Definition bare_world : World :=
  {| nb_load_bold := nb_load_bold world;
     nb_load_label := nb_load_label world;
     nb_load_gifti := nb_load_gifti world;
     read_annot := read_annot world;
     glob := fun _ => [];
     get_dataset := get_dataset world;
     OSF_PROJECT_URL := OSF_PROJECT_URL world;
     OSF_RESOURCES := OSF_RESOURCES world;
     writable := writable world |}.

End Demo.

(** * Properties *)


(** ** Results, comprehensions and lookups *)

Lemma rbind_ok {A B} (r : result A) (k : A -> result B) (b : B) :
  rbind r k = Ok b -> exists a, r = Ok a /\ k a = Ok b.
Proof.
  destruct r as [a | e]; simpl; intros H; [exists a; auto | discriminate].
Qed.

Lemma getitem_ok {A} (l : list A) (i : nat) (x : A) :
  getitem l i = Ok x <-> nth_error l i = Some x.
Proof.
  unfold getitem. destruct (nth_error l i); split; intros H;
    inversion H; subst; reflexivity.
Qed.

Lemma getitem_raise {A} (l : list A) (i : nat) (e : exn) :
  getitem l i = Raise e <-> e = IndexError /\ List.length l <= i.
Proof.
  unfold getitem. destruct (nth_error l i) eqn:E.
  - split; [discriminate |].
    intros [_ H]. apply nth_error_None in H. congruence.
  - apply nth_error_None in E. split.
    + intros H; inversion H; auto.
    + intros [-> _]; reflexivity.
Qed.

Lemma comprehension_ok {A B} (f : A -> result B) (l : list A) (ys : list B) :
  comprehension f l = Ok ys -> Forall2 (fun x y => f x = Ok y) l ys.
Proof.
  revert ys. induction l as [| x r IH]; simpl; intros ys H.
  - inversion H; constructor.
  - apply rbind_ok in H as (y & Hy & H).
    apply rbind_ok in H as (ys' & Hys & H).
    inversion H; subst. constructor; auto.
Qed.

Lemma comprehension_length {A B} (f : A -> result B) (l : list A) (ys : list B) :
  comprehension f l = Ok ys -> List.length ys = List.length l.
Proof.
  intros H. apply comprehension_ok in H.
  symmetry. eapply Forall2_length; eauto.
Qed.

(** A comprehension raises exactly when one of its elements does, and then
    with the exception of the first such element. *)
Lemma comprehension_raise {A B} (f : A -> result B) (l : list A) (e : exn) :
  comprehension f l = Raise e -> exists x, In x l /\ f x = Raise e.
Proof.
  induction l as [| x r IH]; simpl; [discriminate |].
  destruct (f x) as [y | e'] eqn:Ex; simpl.
  - destruct (comprehension f r) as [ys | e'']; simpl; [discriminate |].
    intros H. inversion H; subst.
    destruct (IH eq_refl) as (x' & Hin & Hx'). exists x'; auto.
  - intros H; inversion H; subst. exists x; auto.
Qed.

Lemma comprehension_all_ok {A B} (f : A -> result B) (l : list A) :
  (forall x, In x l -> exists y, f x = Ok y) ->
  exists ys, comprehension f l = Ok ys.
Proof.
  induction l as [| x r IH]; simpl; intros H.
  - eexists; reflexivity.
  - destruct (H x (or_introl eq_refl)) as [y ->]. simpl.
    destruct IH as [ys ->]; [intros; apply H; auto |].
    simpl. eexists; reflexivity.
Qed.

Lemma list_index_ok (x : string) (l : list string) (i : nat) :
  list_index x l = Ok i ->
  nth_error l i = Some x /\ forall j, j < i -> nth_error l j <> Some x.
Proof.
  revert i. induction l as [| y r IH]; simpl; intros i H; [discriminate |].
  destruct (String.eqb_spec y x) as [-> | Hne].
  - inversion H; subst. split; [reflexivity | intros j Hj; lia].
  - apply rbind_ok in H as (i' & Hi' & H). inversion H; subst.
    destruct (IH _ Hi') as [H1 H2]. split; [exact H1 |].
    intros [| j] Hj; simpl; [congruence | apply H2; lia].
Qed.

Lemma list_index_raise (x : string) (l : list string) (e : exn) :
  list_index x l = Raise e <-> e = ValueError /\ ~ In x l.
Proof.
  induction l as [| y r IH]; simpl.
  - split; [intros H; inversion H; auto | intros [-> _]; reflexivity].
  - destruct (String.eqb_spec y x) as [-> | Hne].
    + split; [discriminate | intros [_ H]; exfalso; apply H; auto].
    + destruct (list_index x r) as [i | e'] eqn:E; simpl.
      * split; [discriminate |].
        intros [He Hn]. exfalso.
        assert (Hr : ~ In x r) by (intros Hin; apply Hn; auto).
        destruct IH as [_ IH]. specialize (IH (conj He Hr)). discriminate.
      * split.
        -- intros H; inversion H; subst.
           destruct IH as [IH _]. destruct (IH eq_refl) as [-> Hr].
           split; [reflexivity | intros [Hx | Hx]; [congruence | auto]].
        -- intros [He Hn].
           destruct IH as [_ IH].
           assert (Hr : ~ In x r) by (intros Hin; apply Hn; auto).
           rewrite (IH (conj He Hr)) in *. subst. reflexivity.
Qed.

(** ** [np.nonzero] on one axis *)

Lemma nonzero_from_spec {A} (p : A -> bool) (l : list A) (i v : nat) :
  In v (nonzero_from p l i) <->
  i <= v /\ exists x, nth_error l (v - i) = Some x /\ p x = true.
Proof.
  revert i. induction l as [| y r IH]; intros i; simpl.
  - split; [tauto |]. intros [_ (x & H & _)].
    destruct (v - i); discriminate.
  - assert (Hrest : In v (nonzero_from p r (S i)) <->
              i < v /\ exists x, nth_error (y :: r) (v - i) = Some x /\ p x = true).
    { rewrite IH. split.
      - intros [Hle (x & Hx & Hp)]. split; [lia |].
        exists x. replace (v - i) with (S (v - S i)) by lia. auto.
      - intros [Hlt (x & Hx & Hp)]. split; [lia |].
        exists x. replace (v - i) with (S (v - S i)) in Hx by lia. auto. }
    destruct (p y) eqn:Ep; simpl; rewrite Hrest.
    + split.
      * intros [<- | [Hlt Hx]].
        -- split; [lia |]. exists y. rewrite Nat.sub_diag. auto.
        -- split; [lia | exact Hx].
      * intros [Hle Hx].
        destruct (Nat.eq_dec i v) as [-> | Hne]; [left; reflexivity |].
        right. split; [lia | exact Hx].
    + split.
      * intros [Hlt Hx]. split; [lia | exact Hx].
      * intros [Hle (x & Hx & Hp)].
        destruct (Nat.eq_dec i v) as [-> | Hne].
        -- rewrite Nat.sub_diag in Hx. simpl in Hx. congruence.
        -- split; [lia |]. exists x; auto.
Qed.

Lemma nonzero_from_sorted {A} (p : A -> bool) (l : list A) (i : nat) :
  StronglySorted lt (nonzero_from p l i).
Proof.
  revert i. induction l as [| y r IH]; intros i; simpl.
  - constructor.
  - destruct (p y); [| apply IH].
    constructor; [apply IH |].
    apply Forall_forall. intros v Hv.
    apply nonzero_from_spec in Hv. lia.
Qed.

Lemma np_nonzero1_spec {A} (p : A -> bool) (l : list A) (v : nat) :
  In v (np_nonzero1 p l) <-> exists x, nth_error l v = Some x /\ p x = true.
Proof.
  unfold np_nonzero1. rewrite nonzero_from_spec, Nat.sub_0_r.
  split; [intros [_ H]; exact H | intros H; split; [lia | exact H]].
Qed.

Lemma strictly_increasing_nodup (l : list nat) :
  StronglySorted lt l -> NoDup l.
Proof.
  induction 1 as [| x r Hs IH Hall]; constructor; auto.
  intros Hin. rewrite Forall_forall in Hall.
  specialize (Hall _ Hin). lia.
Qed.

Lemma differs_from_spec (u : nat) (c : Z) :
  differs_from u c = true <-> c <> Z.of_nat u.
Proof.
  unfold differs_from. rewrite negb_true_iff. apply Z.eqb_neq.
Qed.

(** ** The effect monad *)

Lemma mbind_ok {A B} (m : M A) (k : A -> M B) log log' (b : B) :
  mbind m k log = (log', Ok b) ->
  exists a log1, m log = (log1, Ok a) /\ k a log1 = (log', Ok b).
Proof.
  unfold mbind. destruct (m log) as [log1 [a | e]]; intros H.
  - exists a, log1. auto.
  - inversion H.
Qed.

Lemma lift_ok {A} (r : result A) log log' (a : A) :
  lift r log = (log', Ok a) -> r = Ok a /\ log' = log.
Proof. unfold lift. intros H; inversion H; auto. Qed.

Lemma perform_ok {A} (ev : event) (r : result A) log log' (a : A) :
  perform ev r log = (log', Ok a) -> r = Ok a /\ log' = log ++ [ev].
Proof. unfold perform. intros H; inversion H; auto. Qed.

Lemma mret_ok {A} (a a' : A) log log' :
  mret a log = (log', Ok a') -> a' = a /\ log' = log.
Proof. unfold mret. intros H; inversion H; auto. Qed.

(** ** The two branches of the loop *)

(** Every structure name selects position 0: [hemi] is one character and
    so never equal to [RIGHT]. *)
Lemma hemi_of_one_char (structure hemi : string) :
  hemi_of structure = Ok hemi -> String.length hemi = 1.
Proof.
  unfold hemi_of. intros H. apply rbind_ok in H as (wd & _ & H).
  destruct wd as [| c r]; simpl in H; inversion H; reflexivity.
Qed.

Lemma hemi_position_zero (structure hemi : string) :
  hemi_of structure = Ok hemi -> hemi_position hemi = 0.
Proof.
  intros H. apply hemi_of_one_char in H. unfold hemi_position.
  destruct (String.eqb_spec hemi "RIGHT") as [-> | _]; [discriminate | reflexivity].
Qed.

(** What a successful pass through the surface branch has done. *)
Lemma surface_branch_ok w annotation_files gii_files structure st log log' st' :
  surface_branch w annotation_files gii_files structure st log = (log', Ok st') ->
  exists annot_path annot gii_path gii surf_verts vert_idx ts stacked,
    getitem annotation_files 0 = Ok annot_path /\
    read_annot w annot_path = Ok annot /\
    getitem gii_files 0 = Ok gii_path /\
    nb_load_gifti w gii_path = Ok gii /\
    surface_extract annot gii = Ok (surf_verts, vert_idx, ts) /\
    np_column_stack (bm_ts st) (np_array_2d (List.length vert_idx) ts) = Ok stacked /\
    log' = log ++ [AnnotRead annot_path; Loaded gii_path] /\
    st' = {| idx_offset := idx_offset st + List.length vert_idx;
             brainmodels := brainmodels st ++
               [{| index_offset := idx_offset st;
                   index_count := List.length vert_idx;
                   model_type := CIFTI_MODEL_TYPE_SURFACE;
                   brain_structure := structure;
                   vertex_indices := Some vert_idx;
                   voxel_indices_ijk := None;
                   surface_number_of_vertices := Some surf_verts |}];
             bm_ts := stacked;
             cur_model_type := CIFTI_MODEL_TYPE_SURFACE |}.
Proof.
  unfold surface_branch. intros H.
  apply mbind_ok in H as (hemi & l1 & Hh & H). apply lift_ok in Hh as [Hh ->].
  apply mbind_ok in H as (apath & l2 & Ha & H). apply lift_ok in Ha as [Ha ->].
  apply mbind_ok in H as (annot & l3 & Hr & H). apply perform_ok in Hr as [Hr ->].
  apply mbind_ok in H as (gpath & l4 & Hg & H). apply lift_ok in Hg as [Hg ->].
  apply mbind_ok in H as (gii & l5 & Hl & H). apply perform_ok in Hl as [Hl ->].
  apply mbind_ok in H as ([[surf_verts vert_idx] ts] & l6 & He & H).
  apply lift_ok in He as [He ->].
  apply mbind_ok in H as (stacked & l7 & Hs & H). apply lift_ok in Hs as [Hs ->].
  apply mret_ok in H as [-> ->].
  unfold hemi_file in Ha, Hg. rewrite (hemi_position_zero _ _ Hh) in Ha, Hg.
  exists apath, annot, gpath, gii, surf_verts, vert_idx, ts, stacked.
  rewrite <- app_assoc. simpl. repeat split; assumption.
Qed.

(** The only exception of the label loop is numpy's [IndexError]. *)
Lemma bold_getitem_raise b ijk e :
  bold_getitem b ijk = Raise e ->
  e = IndexError /\ exists c, In c ijk /\ in_bounds3 b c = false.
Proof.
  unfold bold_getitem. intros H.
  apply comprehension_raise in H as (c & Hin & Hc).
  destruct (in_bounds3 b c) eqn:Eb; inversion Hc; subst.
  split; [reflexivity | exists c; auto].
Qed.

Lemma label_pass_raise l b label acc e :
  label_pass l b label acc = Raise e -> e = IndexError.
Proof.
  unfold label_pass. destruct acc as [vox ts].
  unfold label_lookup.
  destruct (bold_getitem b (np_nonzero3 l label)) as [block | e'] eqn:Eb; simpl.
  - destruct (comprehension _ _) as [picked | e''] eqn:Ec; simpl; [discriminate |].
    intros H; inversion H; subst.
    apply comprehension_raise in Ec as (ix & _ & Hix).
    apply getitem_raise in Hix. tauto.
  - intros H; inversion H; subst.
    apply bold_getitem_raise in Eb. tauto.
Qed.

Lemma label_loop_raise l b labels acc e :
  label_loop l b labels acc = Raise e -> e = IndexError.
Proof.
  revert acc. induction labels as [| label rest IH]; simpl; intros acc H;
    [discriminate |].
  destruct (label_pass l b label acc) as [acc' | e'] eqn:Ep; simpl in H.
  - eapply IH; eauto.
  - inversion H; subst. eapply label_pass_raise; eauto.
Qed.

(** The volume branch never completes: after the labels are looked up,
    [ts.T] is asked of a list. *)
Lemma volume_branch_raises label_data bold_data structure labels st :
  exists e, volume_branch label_data bold_data structure labels st = Raise e
            /\ (e = IndexError \/ e = AttributeError).
Proof.
  unfold volume_branch.
  destruct (label_loop label_data bold_data labels ([], [])) as [[vox ts] | e] eqn:E;
    simpl.
  - exists AttributeError. auto.
  - exists e. split; [reflexivity |]. left.
    eapply label_loop_raise; eauto.
Qed.

(** ** The offsets of the brain models *)

Lemma total_count_app (a b : list Cifti2BrainModel) :
  total_count (a ++ b) = total_count a + total_count b.
Proof. unfold total_count. rewrite map_app, list_sum_app. reflexivity. Qed.

Lemma offsets_chain_snoc (start : nat) (bms : list Cifti2BrainModel) bm :
  offsets_chain start bms ->
  index_offset bm = start + total_count bms ->
  offsets_chain start (bms ++ [bm]).
Proof.
  revert start. induction bms as [| b r IH]; simpl; intros start Hc Ho.
  - unfold total_count in Ho; simpl in Ho. split; [lia | exact I].
  - destruct Hc as [Hb Hr]. split; [exact Hb |].
    apply IH; [exact Hr |].
    unfold total_count in *; simpl in Ho. lia.
Qed.

Lemma offsets_chain_nth (start : nat) (bms : list Cifti2BrainModel) n bm :
  offsets_chain start bms ->
  nth_error bms n = Some bm ->
  index_offset bm = start + total_count (firstn n bms).
Proof.
  revert start n. induction bms as [| b r IH]; intros start n Hc Hn.
  - destruct n; discriminate.
  - destruct Hc as [Hb Hr]. destruct n as [| n]; simpl in *.
    + inversion Hn; subst. unfold total_count; simpl. lia.
    + rewrite (IH _ _ Hr Hn). unfold total_count; simpl. lia.
Qed.

Lemma total_count_firstn_le (bms : list Cifti2BrainModel) n bm :
  nth_error bms n = Some bm ->
  total_count (firstn n bms) + index_count bm <= total_count bms.
Proof.
  revert n. induction bms as [| b r IH]; intros n Hn.
  - destruct n; discriminate.
  - destruct n as [| n]; simpl in *.
    + inversion Hn; subst. unfold total_count; simpl. lia.
    + specialize (IH _ Hn). unfold total_count in *; simpl. lia.
Qed.

Lemma offsets_chain_cover (start : nat) (bms : list Cifti2BrainModel) c :
  offsets_chain start bms ->
  start <= c < start + total_count bms ->
  exists n, covers bms n c.
Proof.
  revert start. induction bms as [| b r IH]; intros start Hc Hrange.
  - unfold total_count in Hrange; simpl in Hrange. lia.
  - destruct Hc as [Hb Hr].
    destruct (Nat.lt_ge_cases c (start + index_count b)) as [Hlt | Hge].
    + exists 0, b. simpl. split; [reflexivity | lia].
    + destruct (IH _ Hr) as (n & bm & Hn & Hin).
      { unfold total_count in *; simpl in Hrange. lia. }
      exists (S n), bm. simpl. auto.
Qed.

Lemma offsets_chain_unique (start : nat) (bms : list Cifti2BrainModel) n m c :
  offsets_chain start bms ->
  covers bms n c -> covers bms m c -> n = m.
Proof.
  intros Hc (bn & Hn & Hrn) (bm & Hm & Hrm).
  pose proof (offsets_chain_nth _ _ _ _ Hc Hn) as On.
  pose proof (offsets_chain_nth _ _ _ _ Hc Hm) as Om.
  assert (Mono : forall i j bi, i < j -> nth_error bms i = Some bi ->
                 j <= List.length bms ->
                 total_count (firstn i bms) + index_count bi
                 <= total_count (firstn j bms)).
  { intros i j bi Hij Hi Hj.
    assert (Hi' : nth_error (firstn j bms) i = Some bi).
    { rewrite nth_error_firstn.
      destruct (Nat.ltb_spec i j); [exact Hi | lia]. }
    pose proof (total_count_firstn_le _ _ _ Hi') as Hle.
    rewrite firstn_firstn in Hle.
    replace (Nat.min i j) with i in Hle by lia. exact Hle. }
  assert (Ln : n < List.length bms) by (apply nth_error_Some; congruence).
  assert (Lm : m < List.length bms) by (apply nth_error_Some; congruence).
  destruct (Nat.lt_trichotomy n m) as [Hlt | [Heq | Hgt]]; [| exact Heq |].
  - specialize (Mono n m bn Hlt Hn ltac:(lia)). lia.
  - specialize (Mono m n bm Hgt Hm ltac:(lia)). lia.
Qed.

(** One pass of the loop appends one entry, placed at the running offset. *)
Lemma loop_body_extends w annotation_files gii_files label_data bold_data
  entry st log log' st' :
  loop_body w annotation_files gii_files label_data bold_data entry st log
  = (log', Ok st') ->
  exists bm, brainmodels st' = brainmodels st ++ [bm] /\
             index_offset bm = idx_offset st /\
             idx_offset st' = idx_offset st + index_count bm /\
             brain_structure bm = fst entry.
Proof.
  destruct entry as [structure labels]. unfold loop_body.
  destruct labels as [| label rest].
  - intros H. apply surface_branch_ok in H
      as (ap & an & gp & g & sv & vi & ts & stacked & _ & _ & _ & _ & _ & _ & _ & ->).
    eexists. simpl. repeat split.
  - intros H. apply lift_ok in H as [H _].
    destruct (volume_branch_raises label_data bold_data structure (label :: rest) st)
      as (e & He & _).
    congruence.
Qed.

Lemma structures_loop_invariant w annotation_files gii_files label_data bold_data
  registry st log log' st' :
  structures_loop w annotation_files gii_files label_data bold_data registry st log
  = (log', Ok st') ->
  offsets_chain 0 (brainmodels st) ->
  idx_offset st = total_count (brainmodels st) ->
  offsets_chain 0 (brainmodels st') /\
  idx_offset st' = total_count (brainmodels st') /\
  map brain_structure (brainmodels st')
  = map brain_structure (brainmodels st) ++ map fst registry.
Proof.
  revert st log. induction registry as [| entry rest IH]; simpl; intros st log H Hc Ho.
  - apply mret_ok in H as [-> _]. rewrite app_nil_r. auto.
  - apply mbind_ok in H as (st1 & log1 & Hb & H).
    apply loop_body_extends in Hb as (bm & Hbm & Hoff & Hidx & Hname).
    destruct (IH _ _ H) as (H1 & H2 & H3).
    + rewrite Hbm. apply offsets_chain_snoc; [exact Hc | lia].
    + rewrite Hbm, total_count_app. unfold total_count at 2; simpl. lia.
    + repeat split; auto.
      rewrite H3, Hbm, map_app, <- app_assoc. simpl. rewrite Hname. reflexivity.
Qed.

(** C1. Whenever the loop has run over a catalogue (any prefix of the
    structures, so also the entries built before a later structure raises),
    the first entry starts at 0, every entry starts where the one before it
    ends, the running offset is the sum of the counts, every range lies in
    [0, total), and every column below the total lies in the range of
    exactly one entry. Entries of count 0 are allowed: they take no
    column. *)
Theorem index_offsets_tile :
  forall registry w annotation_files gii_files label_data bold_data
         timepoints log log' st,
    structures_loop w annotation_files gii_files label_data bold_data registry
      (initial_state timepoints) log = (log', Ok st) ->
    (forall bm, nth_error (brainmodels st) 0 = Some bm -> index_offset bm = 0) /\
    (forall n bm bm',
        nth_error (brainmodels st) n = Some bm ->
        nth_error (brainmodels st) (S n) = Some bm' ->
        index_offset bm' = index_offset bm + index_count bm) /\
    idx_offset st = total_count (brainmodels st) /\
    (forall n bm,
        nth_error (brainmodels st) n = Some bm ->
        index_offset bm + index_count bm <= total_count (brainmodels st)) /\
    (forall c, c < total_count (brainmodels st) ->
        exists n, covers (brainmodels st) n c /\
                  forall m, covers (brainmodels st) m c -> m = n).
Proof.
  intros registry w ann gii l b t log log' st H.
  apply structures_loop_invariant in H as (Hc & Ho & _);
    [| exact I | reflexivity].
  repeat split.
  - intros bm H0. rewrite (offsets_chain_nth _ _ _ _ Hc H0). reflexivity.
  - intros n bm bm' Hn Hn'.
    rewrite (offsets_chain_nth _ _ _ _ Hc Hn), (offsets_chain_nth _ _ _ _ Hc Hn').
    assert (Hf : firstn (S n) (brainmodels st) = firstn n (brainmodels st) ++ [bm]).
    { clear - Hn. revert n Hn.
      induction (brainmodels st) as [| x r IH]; intros [| n] Hn; try discriminate.
      - inversion Hn; reflexivity.
      - simpl in *. f_equal. apply IH; exact Hn. }
    rewrite Hf, total_count_app. unfold total_count at 2; simpl. lia.
  - exact Ho.
  - intros n bm Hn. rewrite (offsets_chain_nth _ _ _ _ Hc Hn).
    pose proof (total_count_firstn_le _ _ _ Hn). lia.
  - intros c Hlt.
    destruct (offsets_chain_cover 0 _ c Hc) as [n Hn]; [lia |].
    exists n. split; [exact Hn |].
    intros m Hm. eapply offsets_chain_unique; eauto.
Qed.

Lemma index_offsets_tile_witness :
  structures_loop Demo.world Demo.annotation_files Demo.gii_files
    Demo.atlas Demo.bold Demo.cortex_only (initial_state 2) []
  = (Demo.cortex_log, Ok Demo.cortex_state)
  /\ idx_offset Demo.cortex_state = total_count (brainmodels Demo.cortex_state).
Proof.
  split; [vm_compute; reflexivity |].
  apply (index_offsets_tile Demo.cortex_only Demo.world Demo.annotation_files
           Demo.gii_files Demo.atlas Demo.bold 2 [] Demo.cortex_log
           Demo.cortex_state).
  vm_compute; reflexivity.
Defined.

(** C3. The position the surface branch reads its two files from is 0 for
    every structure name: [hemi] is the first letter of the last word of
    the name and is compared with the whole word [RIGHT]. On a data set
    whose two hemispheres differ, the entry of the right cortex is built
    from the left annotation and the left time series. *)
Theorem right_cortex_reads_position_zero :
  (forall structure files,
      match hemi_of structure with
      | Ok hemi => hemi_file files hemi = getitem files 0
      | Raise _ => True
      end) /\
  hemi_of "CIFTI_STRUCTURE_CORTEX_RIGHT" = Ok "R" /\
  hemi_file Demo.annotation_files "R" = Ok "lh.aparc.annot" /\
  hemi_file Demo.gii_files "R" = Ok "lh.func.gii" /\
  surface_extract Demo.rh_annot Demo.rh_gii
  = Ok (5, [2; 3; 4], [[32; 33; 34]; [42; 43; 44]]%Z) /\
  exists st,
    surface_branch Demo.world Demo.annotation_files Demo.gii_files
      "CIFTI_STRUCTURE_CORTEX_RIGHT" (initial_state 2) []
    = ([AnnotRead "lh.aparc.annot"; Loaded "lh.func.gii"], Ok st) /\
    map vertex_indices (brainmodels st) = [Some [0; 2; 4]] /\
    rows (bm_ts st) = [[10; 12; 14]; [20; 22; 24]]%Z.
Proof.
  split.
  { intros structure files.
    destruct (hemi_of structure) as [hemi | e] eqn:E; [| exact I].
    unfold hemi_file. rewrite (hemi_position_zero _ _ E). reflexivity. }
  repeat split; try (vm_compute; reflexivity).
  eexists. vm_compute. repeat split.
Qed.

(** C4. The entries of the two cortex structures carry the surface type.
    A structure with label codes yields no entry at all: its branch always
    raises. The type it would hand to the brain model is the loop variable
    [model_type], which the surface branch has set to the surface type and
    which nothing sets back. *)
Theorem volume_structures_yield_no_voxel_entry :
  (forall label_data bold_data structure labels st,
      exists e, volume_branch label_data bold_data structure labels st = Raise e) /\
  (forall st structure vox,
      model_type (volume_brainmodel st structure vox) = cur_model_type st) /\
  structures_loop Demo.world Demo.annotation_files Demo.gii_files
    Demo.atlas Demo.bold Demo.cortex_only (initial_state 2) []
  = (Demo.cortex_log, Ok Demo.cortex_state) /\
  map model_type (brainmodels Demo.cortex_state)
  = [CIFTI_MODEL_TYPE_SURFACE; CIFTI_MODEL_TYPE_SURFACE] /\
  model_type (volume_brainmodel Demo.cortex_state
                "CIFTI_STRUCTURE_ACCUMBENS_LEFT" [(0, 0, 0)])
  = CIFTI_MODEL_TYPE_SURFACE /\
  structures_loop Demo.world Demo.annotation_files Demo.gii_files
    Demo.atlas Demo.bold CIFTI_STRUCT_WITH_LABELS (initial_state 2) []
  = (Demo.cortex_log, Raise AttributeError).
Proof.
  split.
  { intros l b s labels st.
    destruct (volume_branch_raises l b s labels st) as (e & He & _).
    exists e; exact He. }
  split; [reflexivity |].
  repeat split; vm_compute; reflexivity.
Qed.

(** C2. On an atlas in which two voxels carry the code 26, the label loop
    collects one coordinate, not two (the comprehension runs over the list
    of blocks, which has one element), and the branch then raises
    [AttributeError] at [ts.T], so no column reaches the composite matrix.
    For a code no voxel carries, the comprehension indexes an empty array
    and the branch raises [IndexError]. *)
Theorem volume_branch_on_two_voxels :
  np_nonzero3 Demo.atlas 26 = [(0, 0, 0); (0, 0, 1)] /\
  label_loop Demo.atlas Demo.bold [26%Z] ([], [])
  = Ok ([(0, 0, 0)], [[[100; 101]; [110; 111]]]%Z) /\
  volume_branch Demo.atlas Demo.bold "CIFTI_STRUCTURE_ACCUMBENS_LEFT" [26%Z]
    Demo.cortex_state = Raise AttributeError /\
  np_nonzero3 Demo.atlas 58 = [] /\
  volume_branch Demo.atlas Demo.bold "CIFTI_STRUCTURE_ACCUMBENS_RIGHT" [58%Z]
    Demo.cortex_state = Raise IndexError /\
  (forall label_data bold_data structure labels st,
      exists e, volume_branch label_data bold_data structure labels st = Raise e
                /\ (e = IndexError \/ e = AttributeError)).
Proof.
  repeat split; try (vm_compute; reflexivity).
  apply volume_branch_raises.
Qed.

(** ** Surface extraction *)

Lemma surface_extract_ok annot gii surf_verts vert_idx ts :
  surface_extract annot gii = Ok (surf_verts, vert_idx, ts) ->
  exists u,
    list_index "unknown" (annot_names annot) = Ok u /\
    surf_verts = List.length (annot_labels annot) /\
    vert_idx = np_nonzero1 (differs_from u) (annot_labels annot) /\
    comprehension (fun tsarr => take tsarr vert_idx) (darrays gii) = Ok ts.
Proof.
  unfold surface_extract. intros H.
  apply rbind_ok in H as (u & Hu & H).
  apply rbind_ok in H as (ts' & Hts & H).
  inversion H; subst. exists u. auto.
Qed.

Lemma retained_spec annot u v :
  In v (np_nonzero1 (differs_from u) (annot_labels annot)) <-> retained annot u v.
Proof.
  rewrite np_nonzero1_spec. unfold retained.
  split; intros (c & Hc & Hd); exists c; split; auto;
    apply differs_from_spec; exact Hd.
Qed.

(** C5. The entry a surface structure contributes lists, in strictly
    increasing order and without repetition, exactly the vertex positions
    of the annotation it read whose class differs from the position of
    [unknown] in the name table; all of them lie below the number of
    vertices, which the entry records, and the entry's count is the length
    of the list. *)
Theorem surface_vertex_indices_spec :
  forall w annotation_files gii_files structure st log log' st',
    surface_branch w annotation_files gii_files structure st log = (log', Ok st') ->
    exists annot_path annot u bm vs,
      getitem annotation_files 0 = Ok annot_path /\
      read_annot w annot_path = Ok annot /\
      unknown_code annot u /\
      brainmodels st' = brainmodels st ++ [bm] /\
      brain_structure bm = structure /\
      vertex_indices bm = Some vs /\
      surface_number_of_vertices bm = Some (List.length (annot_labels annot)) /\
      StronglySorted lt vs /\
      NoDup vs /\
      (forall v, In v vs -> v < List.length (annot_labels annot)) /\
      (forall v, In v vs <-> retained annot u v) /\
      index_count bm = List.length vs.
Proof.
  intros w ann gii structure st log log' st' H.
  apply surface_branch_ok in H
    as (ap & annot & gp & g & sv & vi & ts & stacked
        & Hap & Hannot & _ & _ & Hext & _ & _ & ->).
  apply surface_extract_ok in Hext as (u & Hu & -> & -> & _).
  apply list_index_ok in Hu.
  eexists ap, annot, u, _, _. simpl.
  repeat split; try eassumption; try reflexivity.
  - apply Hu.
  - apply Hu.
  - apply nonzero_from_sorted.
  - apply strictly_increasing_nodup, nonzero_from_sorted.
  - intros v Hv. apply retained_spec in Hv as (c & Hc & _).
    apply nth_error_Some. congruence.
  - apply retained_spec.
  - apply retained_spec.
Qed.

Lemma surface_vertex_indices_spec_witness :
  exists st',
    surface_branch Demo.world Demo.annotation_files Demo.gii_files
      "CIFTI_STRUCTURE_CORTEX_LEFT" (initial_state 2) []
    = ([AnnotRead "lh.aparc.annot"; Loaded "lh.func.gii"], Ok st') /\
    exists bm vs,
      brainmodels st' = brainmodels (initial_state 2) ++ [bm] /\
      vertex_indices bm = Some vs /\
      StronglySorted lt vs /\
      index_count bm = List.length vs.
Proof.
  pose (st1 := {| idx_offset := 3;
                  brainmodels := firstn 1 (brainmodels Demo.cortex_state);
                  bm_ts := {| ncols := 3;
                              rows := [[10; 12; 14]; [20; 22; 24]]%Z |};
                  cur_model_type := CIFTI_MODEL_TYPE_SURFACE |}).
  assert (H : surface_branch Demo.world Demo.annotation_files Demo.gii_files
                "CIFTI_STRUCTURE_CORTEX_LEFT" (initial_state 2) []
              = ([AnnotRead "lh.aparc.annot"; Loaded "lh.func.gii"], Ok st1))
    by (vm_compute; reflexivity).
  exists st1. split; [exact H |].
  destruct (surface_vertex_indices_spec _ _ _ _ _ _ _ _ H)
    as (ap & annot & u & bm & vs & _ & _ & _ & Hb & _ & Hv & _ & Hs & _ & _ & _ & Hc).
  exists bm, vs. repeat split; assumption.
Defined.

Lemma unknown_code_unique annot u u' :
  unknown_code annot u -> unknown_code annot u' -> u = u'.
Proof.
  intros [H1 H2] [H1' H2'].
  destruct (Nat.lt_trichotomy u u') as [Hlt | [Heq | Hgt]]; [| exact Heq |].
  - exfalso. exact (H2' _ Hlt H1).
  - exfalso. exact (H2 _ Hgt H1').
Qed.

Lemma Forall2_pick {A B} (R : A -> B -> Prop) (l : list A) (l' : list B) x :
  Forall2 R l l' -> In x l -> exists y, R x y.
Proof.
  induction 1 as [| a b r r' Hab _ IH]; simpl; [tauto |].
  intros [<- | Hin]; [exists b; exact Hab | auto].
Qed.

Lemma take_ok data idx vals :
  take data idx = Ok vals -> forall v, In v idx -> v < List.length data.
Proof.
  unfold take. intros H v Hv. apply comprehension_ok in H.
  destruct (Forall2_pick _ _ _ _ H Hv) as [y Hy].
  apply getitem_ok in Hy. apply nth_error_Some. congruence.
Qed.

Lemma take_raise data idx e :
  take data idx = Raise e ->
  e = IndexError /\ exists v, In v idx /\ List.length data <= v.
Proof.
  unfold take. intros H. apply comprehension_raise in H as (v & Hv & H).
  apply getitem_raise in H as [-> Hle]. split; [reflexivity | exists v; auto].
Qed.

(** C6, as the code has it. Surface extraction raises in two cases only:
    [ValueError] when [unknown] is not in the name table, and [IndexError]
    when a frame of the time series is too short to hold a retained vertex
    position. In every other case it returns; a time series whose length
    is not the number of vertices is accepted as long as every retained
    position exists in every frame. *)
Theorem surface_extract_failures :
  forall annot gii,
    (surface_extract annot gii = Raise ValueError <->
     ~ In "unknown" (annot_names annot)) /\
    (surface_extract annot gii = Raise IndexError <->
     exists u data v,
       unknown_code annot u /\ In data (darrays gii) /\
       retained annot u v /\ List.length data <= v) /\
    (forall e, surface_extract annot gii = Raise e ->
               e = ValueError \/ e = IndexError) /\
    (In "unknown" (annot_names annot) ->
     (forall u data v,
         unknown_code annot u -> In data (darrays gii) ->
         retained annot u v -> v < List.length data) ->
     exists r, surface_extract annot gii = Ok r).
Proof.
  intros annot gii. unfold surface_extract.
  destruct (list_index "unknown" (annot_names annot)) as [u | e0] eqn:Eu; simpl.
  - pose proof (list_index_ok _ _ _ Eu) as Hu.
    assert (Hin : In "unknown" (annot_names annot))
      by (eapply nth_error_In; apply Hu).
    set (vi := np_nonzero1 (differs_from u) (annot_labels annot)).
    destruct (comprehension (fun tsarr => take tsarr vi) (darrays gii))
      as [ts | e1] eqn:Ec; simpl.
    + repeat split; try discriminate.
      * intros Hn; contradiction.
      * intros (u' & data & v & Hu' & Hd & Hr & Hle). exfalso.
        rewrite <- (unknown_code_unique _ _ _ Hu Hu') in Hr.
        apply comprehension_ok in Ec.
        destruct (Forall2_pick _ _ _ _ Ec Hd) as [vals Hvals].
        apply retained_spec in Hr.
        pose proof (take_ok _ _ _ Hvals v Hr). lia.
      * intros _ _. eexists; reflexivity.
    + apply comprehension_raise in Ec as (data & Hd & Ht).
      apply take_raise in Ht as (-> & v & Hv & Hle).
      apply retained_spec in Hv.
      repeat split; try discriminate; auto.
      * intros Hn; contradiction.
      * intros _. exists u, data, v. auto.
      * intros e He; inversion He; auto.
      * intros _ Hall. exfalso.
        specialize (Hall u data v Hu Hd Hv). lia.
  - apply list_index_raise in Eu as [-> Hn].
    repeat split; try discriminate; auto.
    + intros (u & _ & _ & [Hu _] & _). exfalso.
      apply Hn. eapply nth_error_In; exact Hu.
    + intros e He; inversion He; auto.
    + intros Hin; contradiction.
Qed.

Lemma surface_extract_failures_witness :
  In "unknown" (annot_names Demo.lh_annot) /\
  exists r, surface_extract Demo.lh_annot Demo.lh_gii = Ok r.
Proof.
  split; [left; reflexivity |].
  apply (proj2 (proj2 (proj2 (surface_extract_failures Demo.lh_annot Demo.lh_gii)))).
  - left; reflexivity.
  - intros u data v Hu Hd (c & Hc & _).
    assert (Hv : v < List.length (annot_labels Demo.lh_annot))
      by (apply nth_error_Some; congruence).
    destruct Hd as [<- | [<- | []]]; exact Hv.
Defined.

(** C6, as stated, fails: one vertex and two values per frame, [unknown]
    in the table, and the extraction returns. *)
Lemma surface_extract_accepts_length_mismatch :
  In "unknown" (annot_names Demo.short_annot) /\
  (exists data, In data (darrays Demo.long_gii) /\
                List.length data <> List.length (annot_labels Demo.short_annot)) /\
  surface_extract Demo.short_annot Demo.long_gii = Ok (1, [0], [[5]]%Z).
Proof.
  split; [left; reflexivity |].
  split; [| vm_compute; reflexivity].
  exists [5; 6]%Z. split; [left; reflexivity | simpl; lia].
Qed.

(** ** Label lookup *)

Lemma coords3_spec d0 d1 d2 i j k :
  In (i, j, k) (coords3 (d0, d1, d2)) <-> i < d0 /\ j < d1 /\ k < d2.
Proof.
  unfold coords3. rewrite in_flat_map. split.
  - intros (i' & Hi & H). rewrite in_flat_map in H.
    destruct H as (j' & Hj & H). rewrite in_map_iff in H.
    destruct H as (k' & Hk & Hk'). inversion Hk; subst.
    rewrite in_seq in Hi, Hj, Hk'. lia.
  - intros (Hi & Hj & Hk). exists i. split; [apply in_seq; lia |].
    rewrite in_flat_map. exists j. split; [apply in_seq; lia |].
    rewrite in_map_iff. exists k. split; [reflexivity | apply in_seq; lia].
Qed.

Lemma np_nonzero3_spec l label i j k :
  In (i, j, k) (np_nonzero3 l label) <->
  (let '(d0, d1, d2) := shape3 l in i < d0 /\ j < d1 /\ k < d2) /\
  at3 l i j k = label.
Proof.
  unfold np_nonzero3. rewrite filter_In.
  destruct (shape3 l) as [[d0 d1] d2]. rewrite coords3_spec.
  unfold label_is. rewrite Z.eqb_eq. reflexivity.
Qed.

(** C7, as the code has it. The lookup of one label compares no shapes.
    Its only exception is numpy's [IndexError]; it is raised exactly when
    some voxel that carries the label lies outside the first three
    dimensions of the time series. When the two shapes agree the lookup
    returns one series of [timepoints] samples per matching voxel. *)
Theorem label_lookup_failures :
  forall l b label,
    (forall e, label_lookup l b label = Raise e -> e = IndexError) /\
    ((exists e, label_lookup l b label = Raise e) <->
     exists c, In c (np_nonzero3 l label) /\ in_bounds3 b c = false) /\
    (shape3 l = spatial_shape b ->
     exists block,
       label_lookup l b label = Ok block /\
       List.length block = List.length (np_nonzero3 l label) /\
       Forall (fun series => List.length series = timepoints_of b) block).
Proof.
  intros l b label. unfold label_lookup. split; [| split].
  - intros e H. apply bold_getitem_raise in H. tauto.
  - split.
    + intros [e H]. apply bold_getitem_raise in H. tauto.
    + intros (c & Hin & Hb).
      destruct (bold_getitem b (np_nonzero3 l label)) as [block | e] eqn:E;
        [| exists e; reflexivity].
      exfalso. unfold bold_getitem in E. apply comprehension_ok in E.
      destruct (Forall2_pick _ _ _ _ E Hin) as [y Hy].
      rewrite Hb in Hy. discriminate.
  - intros Hshape.
    destruct (comprehension_all_ok
                (fun c => if in_bounds3 b c then Ok (series_at b c)
                          else Raise IndexError)
                (np_nonzero3 l label)) as [block Hblock].
    { intros [[i j] k] Hin. apply np_nonzero3_spec in Hin as [Hin _].
      rewrite Hshape in Hin. unfold in_bounds3.
      destruct (spatial_shape b) as [[b0 b1] b2].
      destruct Hin as (Hi & Hj & Hk).
      apply Nat.ltb_lt in Hi, Hj, Hk. rewrite Hi, Hj, Hk. simpl.
      eexists; reflexivity. }
    exists block. unfold bold_getitem. split; [exact Hblock |].
    split; [eapply comprehension_length; exact Hblock |].
    apply comprehension_ok in Hblock. clear Hshape.
    induction Hblock as [| c series r r' Hc _ IH]; constructor; [| exact IH].
    destruct (in_bounds3 b c); inversion Hc; subst.
    unfold series_at. destruct c as [[i j] k].
    rewrite length_map, length_seq. reflexivity.
Qed.

Lemma label_lookup_failures_witness :
  shape3 Demo.atlas = spatial_shape Demo.bold /\
  exists block,
    label_lookup Demo.atlas Demo.bold 26 = Ok block /\
    List.length block = List.length (np_nonzero3 Demo.atlas 26) /\
    Forall (fun series => List.length series = timepoints_of Demo.bold) block.
Proof.
  split; [reflexivity |].
  apply (proj2 (proj2 (label_lookup_failures Demo.atlas Demo.bold 26))).
  reflexivity.
Defined.

(** C7, as stated, fails: the atlas is one voxel longer than the image,
    and the lookup of label 26 returns. The branch it belongs to raises
    [AttributeError] whether the shapes agree or not. *)
Lemma label_lookup_accepts_shape_mismatch :
  shape3 Demo.wide_atlas <> spatial_shape Demo.bold /\
  label_lookup Demo.wide_atlas Demo.bold 26
  = Ok [[100; 101]; [110; 111]]%Z /\
  volume_branch Demo.wide_atlas Demo.bold "CIFTI_STRUCTURE_ACCUMBENS_LEFT"
    [26%Z] Demo.cortex_state = Raise AttributeError /\
  volume_branch Demo.atlas Demo.bold "CIFTI_STRUCTURE_ACCUMBENS_LEFT"
    [26%Z] Demo.cortex_state = Raise AttributeError.
Proof.
  split; [vm_compute; discriminate |].
  repeat split; vm_compute; reflexivity.
Qed.

(** ** What a run adds to the log *)

Lemma saved_paths_app (a b : list event) :
  saved_paths (a ++ b) = saved_paths a ++ saved_paths b.
Proof. unfold saved_paths. apply flat_map_app. Qed.

Lemma quiet_mret {A} (a : A) : quiet (mret a).
Proof. intros log. exists []. rewrite app_nil_r. auto. Qed.

Lemma quiet_mraise {A} (e : exn) : quiet (@mraise A e).
Proof. intros log. exists []. rewrite app_nil_r. auto. Qed.

Lemma quiet_lift {A} (r : result A) : quiet (lift r).
Proof. intros log. exists []. rewrite app_nil_r. auto. Qed.

Lemma quiet_perform {A} (ev : event) (r : result A) :
  saved_paths [ev] = [] -> quiet (perform ev r).
Proof. intros H log. exists [ev]. auto. Qed.

Lemma quiet_mbind {A B} (m : M A) (k : A -> M B) :
  quiet m -> (forall a, quiet (k a)) -> quiet (mbind m k).
Proof.
  intros Hm Hk log. unfold mbind.
  destruct (Hm log) as (d1 & E1 & S1).
  destruct (m log) as [log1 [a | e]]; simpl in E1; subst log1.
  - destruct (Hk a (log ++ d1)) as (d2 & E2 & S2).
    exists (d1 ++ d2). rewrite E2, app_assoc, saved_paths_app, S1, S2. auto.
  - exists d1. auto.
Qed.

Ltac quiet_steps :=
  repeat first
    [ apply quiet_mret
    | apply quiet_mraise
    | apply quiet_lift
    | apply quiet_perform; reflexivity
    | apply quiet_mbind; [| intros ? ] ].

Lemma quiet_surface_branch w annotation_files gii_files structure st :
  quiet (surface_branch w annotation_files gii_files structure st).
Proof.
  unfold surface_branch. quiet_steps.
  match goal with x : (_ * _ * _)%type |- _ => destruct x as [[? ?] ?] end.
  quiet_steps.
Qed.

Lemma quiet_structures_loop w annotation_files gii_files label_data bold_data
  registry st :
  quiet (structures_loop w annotation_files gii_files label_data bold_data
           registry st).
Proof.
  revert st. induction registry as [| [structure labels] rest IH]; intros st; simpl.
  - apply quiet_mret.
  - apply quiet_mbind; [| intros st'; apply IH].
    destruct labels; [apply quiet_surface_branch | apply quiet_lift].
Qed.

(** A run of [create_cifti_image] first only loads; it then either raises
    or saves one file, under the name derived from [bold_file], and
    returns the base name. *)
Lemma create_cifti_image_run registry w bold_file label_file
  annotation_files gii_files volume_target surface_target tr download_link log :
  exists loads,
    saved_paths loads = [] /\
    ((exists e,
        create_cifti_image_over registry w bold_file label_file annotation_files
          gii_files volume_target surface_target tr download_link log
        = (log ++ loads, Raise e)) \/
     (exists img,
        create_cifti_image_over registry w bold_file label_file annotation_files
          gii_files volume_target surface_target tr download_link log
        = (log ++ loads ++ [Saved (dtseries_name (out_file_of bold_file)) img],
           Ok (out_file_of bold_file)))).
Proof.
  unfold create_cifti_image_over, mbind, perform.
  destruct (nb_load_bold w bold_file) as [bold_img | e].
  2: { exists [Loaded bold_file]. split; [reflexivity |]. left. exists e. reflexivity. }
  destruct (nb_load_label w label_file) as [label_data | e].
  2: { exists [Loaded bold_file; Loaded label_file]. split; [reflexivity |].
       left. exists e. rewrite <- app_assoc. reflexivity. }
  destruct (quiet_structures_loop w annotation_files gii_files label_data bold_img
              registry (initial_state (timepoints_of bold_img))
              ((log ++ [Loaded bold_file]) ++ [Loaded label_file]))
    as (d & Ed & Sd).
  destruct (structures_loop _ _ _ _ _ _ _ _) as [log1 [st | e]];
    simpl in Ed; subst log1.
  2: { exists ([Loaded bold_file; Loaded label_file] ++ d).
       split; [rewrite saved_paths_app, Sd; reflexivity |].
       left. exists e. rewrite <- !app_assoc. reflexivity. }
  unfold ci_save. destruct (writable w _).
  - exists ([Loaded bold_file; Loaded label_file] ++ d).
    split; [rewrite saved_paths_app, Sd; reflexivity |].
    right. eexists. unfold mret. rewrite <- !app_assoc. reflexivity.
  - exists ([Loaded bold_file; Loaded label_file] ++ d).
    split; [rewrite saved_paths_app, Sd; reflexivity |].
    left. exists IOError. rewrite <- !app_assoc. reflexivity.
Qed.

(** ** The space gate *)

Lemma space_unsupported_spec inputs :
  space_unsupported inputs = true <->
  surface_target inputs = "fsnative" \/
  volume_target inputs <> "MNI152NLin2009cAsym".
Proof.
  unfold space_unsupported. rewrite orb_true_iff, negb_true_iff.
  rewrite String.eqb_eq, String.eqb_neq. reflexivity.
Qed.

(** Past the gate, the first thing done is the search for annotations. *)
Lemma fetch_data_passes w inputs log :
  space_unsupported inputs = false ->
  exists d,
    fst (_fetch_data w inputs log)
    = log ++ Globbed (os_path_join (subjects_dir inputs)
                        [surface_target inputs; "label"; "*h.aparc.annot"]) :: d.
Proof.
  intros Hg. unfold _fetch_data. rewrite Hg.
  unfold mbind at 1. unfold perform at 1.
  destruct (sorted (glob w _)) as [| f fs].
  - exists []. reflexivity.
  - set (log1 := log ++ [Globbed _]).
    assert (Q : forall (k : M (list string * string * string)),
               quiet k -> exists d, fst (k log1) = log ++ Globbed
                 (os_path_join (subjects_dir inputs)
                    [surface_target inputs; "label"; "*h.aparc.annot"]) :: d).
    { intros k Hk. destruct (Hk log1) as (d & Ed & _). exists d.
      rewrite Ed. subst log1. rewrite <- app_assoc. reflexivity. }
    apply Q. quiet_steps.
Qed.

Lemma app_cons_neq {A} (l d : list A) (x : A) : l ++ x :: d <> l.
Proof.
  intros H. apply (f_equal (@List.length A)) in H.
  rewrite length_app in H. simpl in H. lia.
Qed.

(** C8, as the code has it. The run raises [NotImplementedError] with
    nothing searched, fetched, loaded or saved exactly when the surface
    target is [fsnative] or the volume target is not [MNI152NLin2009cAsym].
    Every other pair passes: the run goes on to search for annotation
    files. The three surface targets the interface declares all pass with
    the declared volume target. *)
Theorem space_gate :
  forall w inputs log,
    (space_unsupported inputs = true <->
     surface_target inputs = "fsnative" \/
     volume_target inputs <> "MNI152NLin2009cAsym") /\
    (_run_interface w inputs log = (log, Raise NotImplementedError) <->
     space_unsupported inputs = true) /\
    (space_unsupported inputs = false ->
     exists d,
       fst (_run_interface w inputs log)
       = log ++ Globbed (os_path_join (subjects_dir inputs)
                           [surface_target inputs; "label"; "*h.aparc.annot"]) :: d) /\
    (In (surface_target inputs) surface_target_values ->
     In (volume_target inputs) volume_target_values ->
     space_unsupported inputs = false).
Proof.
  intros w inputs log.
  assert (Pass : space_unsupported inputs = false ->
     exists d,
       fst (_run_interface w inputs log)
       = log ++ Globbed (os_path_join (subjects_dir inputs)
                           [surface_target inputs; "label"; "*h.aparc.annot"]) :: d).
  { intros Hg. destruct (fetch_data_passes w inputs log Hg) as (d & Ed).
    unfold _run_interface, mbind.
    destruct (_fetch_data w inputs log) as [log1 [[[ann lf] dl] | e]];
      cbn [fst] in Ed; subst log1.
    - cbv beta iota. unfold create_cifti_image.
      destruct (create_cifti_image_run CIFTI_STRUCT_WITH_LABELS w
                  (bold_file inputs) lf ann (gifti_files inputs)
                  (volume_target inputs) (surface_target inputs) (TR inputs)
                  (Some dl) (log ++ Globbed (os_path_join (subjects_dir inputs)
                           [surface_target inputs; "label"; "*h.aparc.annot"]) :: d))
        as (loads & _ & [(e & ->) | (img & ->)]); cbn [fst].
      + exists (d ++ loads). rewrite <- app_assoc. reflexivity.
      + exists (d ++ loads ++ [Saved (dtseries_name (out_file_of (bold_file inputs))) img]).
        rewrite <- app_assoc. reflexivity.
    - exists d. reflexivity. }
  split; [apply space_unsupported_spec |].
  split; [| split; [exact Pass |]].
  - split.
    + intros H. destruct (space_unsupported inputs) eqn:Hg; [reflexivity |].
      destruct (Pass eq_refl) as (d & Ed). rewrite H in Ed. cbn [fst] in Ed.
      symmetry in Ed. exfalso. exact (app_cons_neq _ _ _ Ed).
    + intros Hg. unfold _run_interface, mbind, _fetch_data. rewrite Hg.
      reflexivity.
  - intros Hs Hv. unfold space_unsupported.
    simpl in Hs, Hv.
    destruct Hv as [<- | []].
    destruct Hs as [<- | [<- | [<- | []]]]; reflexivity.
Qed.

Lemma space_gate_witness :
  space_unsupported Demo.inputs = false /\
  exists d,
    fst (_run_interface Demo.world Demo.inputs [])
    = [] ++ Globbed "/subjects/fsaverage5/label/*h.aparc.annot" :: d.
Proof.
  split; [reflexivity |].
  apply (proj1 (proj2 (proj2 (space_gate Demo.world Demo.inputs [])))).
  reflexivity.
Defined.

(** C8, as stated, fails: no single pair is the only one that passes. With
    [fsaverage5] and with [fsaverage6] the run gets past the gate (and ends
    in the volume branch). *)
Lemma no_single_supported_pair :
  ~ exists supported : string * string,
      forall inputs,
        (surface_target inputs, volume_target inputs) <> supported ->
        snd (_run_interface Demo.world inputs []) = Raise NotImplementedError.
Proof.
  intros [supported H].
  destruct (string_dec (fst supported) "fsaverage5") as [E | E].
  - specialize (H (Demo.inputs_for "fsaverage6")).
    assert (R : snd (_run_interface Demo.world (Demo.inputs_for "fsaverage6") [])
                = Raise AttributeError) by (vm_compute; reflexivity).
    rewrite R in H. assert (C : @Raise string AttributeError = Raise NotImplementedError).
    { apply H. intros Hs. rewrite <- Hs in E. simpl in E. discriminate. }
    discriminate.
  - specialize (H (Demo.inputs_for "fsaverage5")).
    assert (R : snd (_run_interface Demo.world (Demo.inputs_for "fsaverage5") [])
                = Raise AttributeError) by (vm_compute; reflexivity).
    rewrite R in H. assert (C : @Raise string AttributeError = Raise NotImplementedError).
    { apply H. intros Hs. rewrite <- Hs in E. simpl in E. congruence. }
    discriminate.
Qed.

(** ** Paths *)













(** ** The catalogue as shipped *)

(** A catalogue with a volume structure in it is never completed. *)
Lemma structures_loop_raises w annotation_files gii_files label_data bold_data
  registry :
  (exists structure label rest, In (structure, label :: rest) registry) ->
  forall st log,
    exists e,
      snd (structures_loop w annotation_files gii_files label_data bold_data
             registry st log) = Raise e.
Proof.
  induction registry as [| [s labels] more IH]; intros (structure & label & rest & Hin).
  - destruct Hin.
  - intros st log. cbn [structures_loop]. unfold mbind.
    destruct (loop_body w annotation_files gii_files label_data bold_data
                (s, labels) st log) as [log1 [st1 | e]] eqn:E;
      cbv beta iota.
    + destruct Hin as [Heq | Hin].
      * inversion Heq; subst. simpl in E. apply lift_ok in E as [E _].
        destruct (volume_branch_raises label_data bold_data structure
                    (label :: rest) st) as (e & He & _).
        congruence.
      * apply IH. exists structure, label, rest. exact Hin.
    + exists e. reflexivity.
Qed.

(** No run of [create_cifti_image] returns: the third structure of the
    catalogue already has a label. *)
Lemma create_cifti_image_always_raises w bold_file label_file annotation_files
  gii_files volume_target surface_target tr download_link log :
  exists e,
    snd (create_cifti_image w bold_file label_file annotation_files gii_files
           volume_target surface_target tr download_link log) = Raise e.
Proof.
  unfold create_cifti_image, create_cifti_image_over, mbind, perform.
  destruct (nb_load_bold w bold_file) as [bold_img | e]; [| exists e; reflexivity].
  destruct (nb_load_label w label_file) as [label_data | e]; [| exists e; reflexivity].
  destruct (structures_loop_raises w annotation_files gii_files label_data bold_img
              CIFTI_STRUCT_WITH_LABELS
              ltac:(exists "CIFTI_STRUCTURE_ACCUMBENS_LEFT", 26%Z, [];
                    simpl; auto)
              (initial_state (timepoints_of bold_img))
              ((log ++ [Loaded bold_file]) ++ [Loaded label_file])) as [e He].
  destruct (structures_loop _ _ _ _ _ _ _ _) as [log1 [st | e']];
    simpl in He; [discriminate |].
  exists e'. reflexivity.
Qed.




(** * Further properties of the code *)

(** ** The volume branch *)

Lemma bold_getitem_all_in b ijk :
  (forall c, In c ijk -> in_bounds3 b c = true) ->
  exists block, bold_getitem b ijk = Ok block /\ List.length block = List.length ijk.
Proof.
  intros H. unfold bold_getitem.
  destruct (comprehension_all_ok
              (fun c => if in_bounds3 b c then Ok (series_at b c) else Raise IndexError)
              ijk) as [block Hb].
  { intros c Hc. rewrite (H c Hc). eexists; reflexivity. }
  exists block. split; [exact Hb | eapply comprehension_length; exact Hb].
Qed.

Lemma bold_getitem_ok_in b ijk block :
  bold_getitem b ijk = Ok block -> forall c, In c ijk -> in_bounds3 b c = true.
Proof.
  unfold bold_getitem. intros H c Hc. apply comprehension_ok in H.
  destruct (Forall2_pick _ _ _ _ H Hc) as [y Hy].
  destruct (in_bounds3 b c); [reflexivity | discriminate].
Qed.

(** X1. For a structure with one label, as all of the catalogue have, the
    branch raises [IndexError] when no voxel carries the label or when a
    voxel that carries it lies outside the time series, and
    [AttributeError] in every other case. *)
Theorem single_label_branch_errors :
  forall l b structure label st,
    (volume_branch l b structure [label] st = Raise IndexError <->
     np_nonzero3 l label = [] \/
     exists c, In c (np_nonzero3 l label) /\ in_bounds3 b c = false) /\
    (volume_branch l b structure [label] st = Raise AttributeError <->
     np_nonzero3 l label <> [] /\
     forall c, In c (np_nonzero3 l label) -> in_bounds3 b c = true).
Proof.
  intros l b structure label st.
  unfold volume_branch, label_loop, label_pass, label_lookup.
  destruct (bold_getitem b (np_nonzero3 l label)) as [block | e] eqn:Eb; simpl.
  - pose proof (bold_getitem_ok_in _ _ _ Eb) as Hin.
    unfold getitem.
    destruct (np_nonzero3 l label) as [| c0 rest] eqn:En; simpl.
    + split; split; try discriminate; auto.
      intros [H _]. congruence.
    + split; split; try discriminate; auto.
      * intros [H | (c & Hc & Hout)]; [discriminate |].
        rewrite (Hin c Hc) in Hout. discriminate.
      * intros _. split; [discriminate | exact Hin].
  - apply bold_getitem_raise in Eb as (-> & c & Hc & Hout).
    split; split; try discriminate; auto.
    + intros _. right. exists c; auto.
    + intros [_ H]. rewrite (H c Hc) in Hout. discriminate.
Qed.

Lemma label_pass_lengths l b label vox ts vox' ts' :
  label_pass l b label (vox, ts) = Ok (vox', ts') ->
  List.length ts' = S (List.length ts) /\
  List.length vox' = List.length vox + S (List.length ts).
Proof.
  unfold label_pass. intros H.
  apply rbind_ok in H as (block & _ & H).
  apply rbind_ok in H as (picked & Hp & H).
  inversion H; subst. apply comprehension_length in Hp.
  rewrite length_seq in Hp.
  rewrite !length_app in *. simpl in *. lia.
Qed.

Lemma label_loop_lengths l b labels vox ts vox' ts' :
  label_loop l b labels (vox, ts) = Ok (vox', ts') ->
  List.length ts' = List.length ts + List.length labels /\
  2 * List.length vox'
  = 2 * List.length vox
    + List.length labels * (2 * List.length ts + List.length labels + 1).
Proof.
  revert vox ts. induction labels as [| label rest IH]; simpl; intros vox ts H.
  - inversion H; subst. lia.
  - apply rbind_ok in H as ([vox1 ts1] & Hp & H).
    apply label_pass_lengths in Hp as [Ht Hv].
    apply IH in H as [Ht' Hv']. split; [lia | nia].
Qed.

(** X2. When the loop over the labels of a structure completes, it has kept
    one block per label but 1 + 2 + ... + k coordinates for k labels: the
    pass for the j-th label takes the first j voxels that carry it. *)
Theorem label_loop_counts :
  forall l b labels vox ts,
    label_loop l b labels ([], []) = Ok (vox, ts) ->
    List.length ts = List.length labels /\
    2 * List.length vox = List.length labels * (List.length labels + 1).
Proof.
  intros l b labels vox ts H.
  apply label_loop_lengths in H as [Ht Hv]. simpl in *. split; [lia | nia].
Qed.

Lemma label_loop_counts_witness :
  label_loop Demo.atlas Demo.bold [26; 26]%Z ([], [])
  = Ok ([(0, 0, 0); (0, 0, 0); (0, 0, 1)],
        [[[100; 101]; [110; 111]]; [[100; 101]; [110; 111]]]%Z)
  /\ 2 * 3 = 2 * (2 + 1).
Proof.
  assert (H : label_loop Demo.atlas Demo.bold [26; 26]%Z ([], [])
              = Ok ([(0, 0, 0); (0, 0, 0); (0, 0, 1)],
                    [[[100; 101]; [110; 111]]; [[100; 101]; [110; 111]]]%Z))
    by (vm_compute; reflexivity).
  split; [exact H |].
  exact (proj2 (label_loop_counts _ _ _ _ _ H)).
Defined.

(** ** The composite matrix *)

Lemma surface_extract_rows annot gii surf_verts vert_idx ts :
  surface_extract annot gii = Ok (surf_verts, vert_idx, ts) ->
  Forall2 (fun data row => Forall2 (fun v x => nth_error data v = Some x) vert_idx row)
    (darrays gii) ts.
Proof.
  intros H. apply surface_extract_ok in H as (u & _ & _ & _ & H).
  apply comprehension_ok in H.
  induction H as [| data row r r' Hrow _ IH]; constructor; [| exact IH].
  unfold take in Hrow. apply comprehension_ok in Hrow.
  clear - Hrow. induction Hrow as [| v x a a' Hv _ IH]; constructor; [| exact IH].
  apply getitem_ok. exact Hv.
Qed.

Lemma zip_rows_length (a b : list (list scalar)) :
  List.length a = List.length b -> List.length (zip_rows a b) = List.length a.
Proof.
  revert b. induction a as [| ra a IH]; intros [| rb b] H; simpl in *;
    try discriminate; auto.
Qed.

Lemma zip_rows_nth (a b : list (list scalar)) t ra rb :
  nth_error a t = Some ra -> nth_error b t = Some rb ->
  nth_error (zip_rows a b) t = Some (ra ++ rb).
Proof.
  revert b t. induction a as [| x a IH]; intros [| y b] [| t] Ha Hb;
    simpl in *; try discriminate.
  - inversion Ha; inversion Hb; subst. reflexivity.
  - apply IH; assumption.
Qed.

Lemma zip_rows_widths (a b : list (list scalar)) n m :
  Forall (fun r => List.length r = n) a ->
  Forall (fun r => List.length r = m) b ->
  Forall (fun r => List.length r = n + m) (zip_rows a b).
Proof.
  intros Ha. revert b. induction Ha as [| ra a Hra _ IH]; intros b Hb; simpl.
  - constructor.
  - destruct Hb as [| rb b Hrb Hb]; constructor.
    + rewrite length_app. lia.
    + apply IH; exact Hb.
Qed.

(** What [np.column_stack] does with the block of a surface structure. *)
Lemma column_stack_block (m : Matrix) (width : nat) (ts : list (list scalar)) :
  (List.length ts = nrows m ->
   forall stacked,
     np_column_stack m (np_array_2d width ts) = Ok stacked ->
     0 < nrows m ->
     stacked = {| ncols := ncols m + width; rows := zip_rows (rows m) ts |}) /\
  (List.length ts <> nrows m ->
   np_column_stack m (np_array_2d width ts) = Raise ValueError) /\
  (List.length ts = nrows m ->
   exists stacked, np_column_stack m (np_array_2d width ts) = Ok stacked).
Proof.
  unfold np_column_stack, nrows.
  destruct ts as [| r ts]; simpl.
  - repeat split.
    + intros H stacked _ Hpos. lia.
    + intros H. destruct (Nat.eqb_spec (List.length (rows m)) 0); [congruence | reflexivity].
    + intros H. rewrite <- H. simpl. eexists; reflexivity.
  - repeat split.
    + intros H stacked Hs _. rewrite <- H, Nat.eqb_refl in Hs.
      inversion Hs; reflexivity.
    + intros H.
      destruct (Nat.eqb_spec (List.length (rows m)) (S (List.length ts)));
        [congruence | reflexivity].
    + intros H. rewrite <- H, Nat.eqb_refl. eexists; reflexivity.
Qed.

(** X3. Once the annotation and the time series are read and the vertices
    extracted, the surface branch raises [ValueError] exactly when the
    number of frames of the time series is not the number of rows of the
    composite matrix, and returns otherwise. *)
Theorem frame_count_mismatch :
  forall w annotation_files gii_files structure st log
         hemi annot_path annot gii_path g r,
    hemi_of structure = Ok hemi ->
    getitem annotation_files 0 = Ok annot_path ->
    read_annot w annot_path = Ok annot ->
    getitem gii_files 0 = Ok gii_path ->
    nb_load_gifti w gii_path = Ok g ->
    surface_extract annot g = Ok r ->
    (List.length (darrays g) <> nrows (bm_ts st) ->
     surface_branch w annotation_files gii_files structure st log
     = (log ++ [AnnotRead annot_path; Loaded gii_path], Raise ValueError)) /\
    (List.length (darrays g) = nrows (bm_ts st) ->
     exists st',
       surface_branch w annotation_files gii_files structure st log
       = (log ++ [AnnotRead annot_path; Loaded gii_path], Ok st')).
Proof.
  intros w ann gii structure st log hemi ap annot gp g [[sv vi] ts]
         Hh Hap Han Hgp Hg He.
  assert (Hlen : List.length ts = List.length (darrays g)).
  { apply surface_extract_rows in He. symmetry. eapply Forall2_length; eauto. }
  unfold surface_branch, mbind, lift, perform, hemi_file.
  rewrite Hh, (hemi_position_zero _ _ Hh), Hap, Han, Hgp, Hg, He.
  destruct (column_stack_block (bm_ts st) (List.length vi) ts) as (_ & Hne & Heq).
  split; intros H.
  - rewrite Hne by congruence. rewrite <- app_assoc. reflexivity.
  - destruct Heq as [stacked ->]; [congruence |].
    eexists. unfold mret. rewrite <- app_assoc. reflexivity.
Qed.

Lemma frame_count_mismatch_witness :
  surface_branch Demo.world Demo.annotation_files Demo.gii_files
    "CIFTI_STRUCTURE_CORTEX_LEFT" (initial_state 3) []
  = ([] ++ [AnnotRead "lh.aparc.annot"; Loaded "lh.func.gii"], Raise ValueError).
Proof.
  apply (proj1 (frame_count_mismatch Demo.world Demo.annotation_files
                  Demo.gii_files "CIFTI_STRUCTURE_CORTEX_LEFT" (initial_state 3) []
                  "L" "lh.aparc.annot" Demo.lh_annot "lh.func.gii" Demo.lh_gii
                  (5, [0; 2; 4], [[10; 12; 14]; [20; 22; 24]]%Z)
                  eq_refl eq_refl eq_refl eq_refl eq_refl eq_refl)).
  intros H. vm_compute in H. discriminate.
Defined.

Lemma surface_branch_shape w annotation_files gii_files structure st log log' st' :
  surface_branch w annotation_files gii_files structure st log = (log', Ok st') ->
  0 < nrows (bm_ts st) ->
  well_shaped (bm_ts st) ->
  nrows (bm_ts st') = nrows (bm_ts st) /\
  well_shaped (bm_ts st') /\
  ncols (bm_ts st') + idx_offset st = ncols (bm_ts st) + idx_offset st'.
Proof.
  intros H Hpos Hw.
  apply surface_branch_ok in H
    as (ap & annot & gp & g & sv & vi & ts & stacked
        & _ & _ & _ & _ & He & Hs & _ & ->).
  pose proof (surface_extract_rows _ _ _ _ _ He) as Hrows.
  destruct (column_stack_block (bm_ts st) (List.length vi) ts) as (Hok & Hne & _).
  destruct (Nat.eq_dec (List.length ts) (nrows (bm_ts st))) as [Hlen | Hlen];
    [| rewrite (Hne Hlen) in Hs; discriminate].
  rewrite (Hok Hlen stacked Hs Hpos). simpl. unfold nrows, well_shaped in *. simpl.
  split; [apply zip_rows_length; congruence |].
  split; [| lia].
  apply zip_rows_widths; [exact Hw |].
  clear - Hrows. induction Hrows as [| data row a b Hrow _ IH]; constructor; [| exact IH].
  symmetry. eapply Forall2_length; eauto.
Qed.

Lemma structures_loop_shape w annotation_files gii_files label_data bold_data
  registry st0 log log' st :
  structures_loop w annotation_files gii_files label_data bold_data registry
    st0 log = (log', Ok st) ->
  0 < nrows (bm_ts st0) ->
  well_shaped (bm_ts st0) ->
  ncols (bm_ts st0) = idx_offset st0 ->
  nrows (bm_ts st) = nrows (bm_ts st0) /\
  well_shaped (bm_ts st) /\
  ncols (bm_ts st) = idx_offset st.
Proof.
  revert st0 log.
  induction registry as [| [s labels] rest IH]; simpl; intros st0 log0 H Hn Hw Hc.
  - apply mret_ok in H as [-> _]. auto.
  - apply mbind_ok in H as (st1 & log1 & Hb & H).
    destruct labels as [| label more].
    + destruct (surface_branch_shape _ _ _ _ _ _ _ _ Hb Hn Hw) as (Hn1 & Hw1 & Hc1).
      destruct (IH _ _ H) as (Hn2 & Hw2 & Hc2); [lia | exact Hw1 | lia |].
      split; [lia | split; assumption].
    + apply lift_ok in Hb as [Hb _].
      destruct (volume_branch_raises label_data bold_data s (label :: more) st0)
        as (e & He & _).
      congruence.
Qed.

Lemma initial_state_shape (timepoints : nat) :
  nrows (bm_ts (initial_state timepoints)) = timepoints /\
  well_shaped (bm_ts (initial_state timepoints)).
Proof.
  unfold nrows, well_shaped. simpl. split; [apply repeat_length |].
  apply Forall_forall. intros r Hr. apply repeat_spec in Hr. subst. reflexivity.
Qed.

(** X4. With at least one time point, the matrix a completed loop leaves has
    one row per time point and one column per index: as many columns as
    the counts of the brain models add up to, in every row. *)
Theorem composite_matrix_shape :
  forall registry w annotation_files gii_files label_data bold_data
         timepoints log log' st,
    0 < timepoints ->
    structures_loop w annotation_files gii_files label_data bold_data registry
      (initial_state timepoints) log = (log', Ok st) ->
    nrows (bm_ts st) = timepoints /\
    ncols (bm_ts st) = total_count (brainmodels st) /\
    Forall (fun r => List.length r = total_count (brainmodels st)) (rows (bm_ts st)).
Proof.
  intros registry w ann gii l b t log log' st Hpos H.
  pose proof (structures_loop_invariant _ _ _ _ _ _ _ _ _ _ H I eq_refl)
    as (_ & Hsum & _).
  destruct (initial_state_shape t) as [Hn0 Hw0].
  destruct (structures_loop_shape _ _ _ _ _ _ _ _ _ _ H) as (Hn & Hw & Hc);
    [lia | exact Hw0 | reflexivity |].
  split; [lia |]. split; [lia |].
  unfold well_shaped in Hw. rewrite Hc, Hsum in Hw. exact Hw.
Qed.

Lemma composite_matrix_shape_witness :
  0 < 2 /\
  nrows (bm_ts Demo.cortex_state) = 2 /\
  ncols (bm_ts Demo.cortex_state) = total_count (brainmodels Demo.cortex_state) /\
  Forall (fun r => List.length r = total_count (brainmodels Demo.cortex_state))
    (rows (bm_ts Demo.cortex_state)).
Proof.
  split; [lia |].
  apply (composite_matrix_shape Demo.cortex_only Demo.world Demo.annotation_files
           Demo.gii_files Demo.atlas Demo.bold 2 [] Demo.cortex_log
           Demo.cortex_state); [lia | vm_compute; reflexivity].
Defined.

Lemma Forall2_nth {A B} (R : A -> B -> Prop) (l : list A) (l' : list B) t x :
  Forall2 R l l' -> nth_error l t = Some x ->
  exists y, nth_error l' t = Some y /\ R x y.
Proof.
  intros H. revert t. induction H as [| a b r r' Hab _ IH]; intros [| t] Ht;
    simpl in *; try discriminate.
  - inversion Ht; subst. exists b; auto.
  - apply IH; exact Ht.
Qed.

(** X5. With at least one time point, a completed surface branch extends row
    [t] of the composite matrix by the values of frame [t] of the time
    series it read, taken at the vertex indices recorded in the new brain
    model, in that order; the time series has one frame per row. *)
Theorem surface_columns_from_source :
  forall w annotation_files gii_files structure st log log' st',
    surface_branch w annotation_files gii_files structure st log = (log', Ok st') ->
    0 < nrows (bm_ts st) ->
    exists gii_path g bm vs,
      getitem gii_files 0 = Ok gii_path /\
      nb_load_gifti w gii_path = Ok g /\
      brainmodels st' = brainmodels st ++ [bm] /\
      vertex_indices bm = Some vs /\
      List.length (darrays g) = nrows (bm_ts st) /\
      forall t old data,
        nth_error (rows (bm_ts st)) t = Some old ->
        nth_error (darrays g) t = Some data ->
        exists picked,
          nth_error (rows (bm_ts st')) t = Some (old ++ picked) /\
          Forall2 (fun v x => nth_error data v = Some x) vs picked.
Proof.
  intros w ann gii structure st log log' st' H Hpos.
  apply surface_branch_ok in H
    as (ap & annot & gp & g & sv & vi & ts & stacked
        & _ & _ & Hgp & Hg & He & Hs & _ & ->).
  pose proof (surface_extract_rows _ _ _ _ _ He) as Hrows.
  destruct (column_stack_block (bm_ts st) (List.length vi) ts) as (Hok & Hne & _).
  destruct (Nat.eq_dec (List.length ts) (nrows (bm_ts st))) as [Hlen | Hlen];
    [| rewrite (Hne Hlen) in Hs; discriminate].
  rewrite (Hok Hlen stacked Hs Hpos).
  eexists gp, g, _, vi. simpl.
  repeat split; try eassumption; try reflexivity.
  - rewrite <- Hlen. eapply Forall2_length; eauto.
  - intros t old data Hold Hdata.
    destruct (Forall2_nth _ _ _ _ _ Hrows Hdata) as (row & Hrow & Hpick).
    exists row. split; [apply zip_rows_nth; assumption | exact Hpick].
Qed.

Lemma surface_columns_from_source_witness :
  exists st',
    surface_branch Demo.world Demo.annotation_files Demo.gii_files
      "CIFTI_STRUCTURE_CORTEX_LEFT" (initial_state 2) []
    = ([AnnotRead "lh.aparc.annot"; Loaded "lh.func.gii"], Ok st') /\
    0 < nrows (bm_ts (initial_state 2)) /\
    exists gii_path g,
      getitem Demo.gii_files 0 = Ok gii_path /\
      nb_load_gifti Demo.world gii_path = Ok g /\
      List.length (darrays g) = nrows (bm_ts (initial_state 2)).
Proof.
  pose (st1 := {| idx_offset := 3;
                  brainmodels := firstn 1 (brainmodels Demo.cortex_state);
                  bm_ts := {| ncols := 3;
                              rows := [[10; 12; 14]; [20; 22; 24]]%Z |};
                  cur_model_type := CIFTI_MODEL_TYPE_SURFACE |}).
  assert (H : surface_branch Demo.world Demo.annotation_files Demo.gii_files
                "CIFTI_STRUCTURE_CORTEX_LEFT" (initial_state 2) []
              = ([AnnotRead "lh.aparc.annot"; Loaded "lh.func.gii"], Ok st1))
    by (vm_compute; reflexivity).
  assert (Hpos : 0 < nrows (bm_ts (initial_state 2))) by (vm_compute; lia).
  exists st1. split; [exact H |]. split; [exact Hpos |].
  destruct (surface_columns_from_source _ _ _ _ _ _ _ _ H Hpos)
    as (gp & g & bm & vs & Hgp & Hg & _ & _ & Hlen & _).
  exists gp, g. auto.
Defined.

(** X6. Two surface structures processed one after the other read the same
    two files, whatever their names: their brain models carry the same
    vertex indices, count and number of vertices, the second starting
    where the first ends. *)
Theorem surface_entries_repeat :
  forall w annotation_files gii_files s1 s2 st0 st1 st2 log0 log1 log2,
    surface_branch w annotation_files gii_files s1 st0 log0 = (log1, Ok st1) ->
    surface_branch w annotation_files gii_files s2 st1 log1 = (log2, Ok st2) ->
    exists bm1 bm2 annot_path gii_path,
      brainmodels st2 = brainmodels st0 ++ [bm1; bm2] /\
      brain_structure bm1 = s1 /\ brain_structure bm2 = s2 /\
      vertex_indices bm2 = vertex_indices bm1 /\
      index_count bm2 = index_count bm1 /\
      surface_number_of_vertices bm2 = surface_number_of_vertices bm1 /\
      index_offset bm2 = index_offset bm1 + index_count bm1 /\
      log2 = log0 ++ [AnnotRead annot_path; Loaded gii_path;
                      AnnotRead annot_path; Loaded gii_path].
Proof.
  intros w ann gii s1 s2 st0 st1 st2 log0 log1 log2 H1 H2.
  apply surface_branch_ok in H1
    as (ap & annot & gp & g & sv & vi & ts & stacked
        & Hap & Han & Hgp & Hg & He & _ & -> & ->).
  apply surface_branch_ok in H2
    as (ap' & annot' & gp' & g' & sv' & vi' & ts' & stacked'
        & Hap' & Han' & Hgp' & Hg' & He' & _ & -> & ->).
  rewrite Hap in Hap'. inversion Hap'; subst ap'.
  rewrite Hgp in Hgp'. inversion Hgp'; subst gp'.
  rewrite Han in Han'. inversion Han'; subst annot'.
  rewrite Hg in Hg'. inversion Hg'; subst g'.
  rewrite He in He'. inversion He'; subst.
  eexists _, _, ap, gp. simpl.
  rewrite <- !app_assoc. simpl. repeat split.
Qed.

Lemma surface_entries_repeat_witness :
  exists st1 log1,
    surface_branch Demo.world Demo.annotation_files Demo.gii_files
      "CIFTI_STRUCTURE_CORTEX_LEFT" (initial_state 2) [] = (log1, Ok st1) /\
    surface_branch Demo.world Demo.annotation_files Demo.gii_files
      "CIFTI_STRUCTURE_CORTEX_RIGHT" st1 log1
    = (Demo.cortex_log, Ok Demo.cortex_state) /\
    exists bm1 bm2,
      brainmodels Demo.cortex_state = [] ++ [bm1; bm2] /\
      vertex_indices bm2 = vertex_indices bm1.
Proof.
  pose (st1 := {| idx_offset := 3;
                  brainmodels := firstn 1 (brainmodels Demo.cortex_state);
                  bm_ts := {| ncols := 3;
                              rows := [[10; 12; 14]; [20; 22; 24]]%Z |};
                  cur_model_type := CIFTI_MODEL_TYPE_SURFACE |}).
  pose (log1 := [AnnotRead "lh.aparc.annot"; Loaded "lh.func.gii"]).
  assert (H1 : surface_branch Demo.world Demo.annotation_files Demo.gii_files
                 "CIFTI_STRUCTURE_CORTEX_LEFT" (initial_state 2) [] = (log1, Ok st1))
    by (vm_compute; reflexivity).
  assert (H2 : surface_branch Demo.world Demo.annotation_files Demo.gii_files
                 "CIFTI_STRUCTURE_CORTEX_RIGHT" st1 log1
               = (Demo.cortex_log, Ok Demo.cortex_state))
    by (vm_compute; reflexivity).
  exists st1, log1. split; [exact H1 |]. split; [exact H2 |].
  destruct (surface_entries_repeat _ _ _ _ _ _ _ _ _ _ _ H1 H2)
    as (bm1 & bm2 & _ & _ & Hb & _ & _ & Hv & _).
  exists bm1, bm2. split; [exact Hb | exact Hv].
Defined.

(** X7. A loop that completes has met surface structures only, and has built
    one surface brain model per structure, named after it, in the order of
    the catalogue, each with a vertex list whose length is its count. *)
Theorem completed_loop_is_surface_only :
  forall registry w annotation_files gii_files label_data bold_data
         st0 log log' st,
    structures_loop w annotation_files gii_files label_data bold_data registry
      st0 log = (log', Ok st) ->
    Forall (fun entry => snd entry = []) registry /\
    exists added,
      brainmodels st = brainmodels st0 ++ added /\
      map brain_structure added = map fst registry /\
      Forall (fun bm =>
                model_type bm = CIFTI_MODEL_TYPE_SURFACE /\
                voxel_indices_ijk bm = None /\
                exists vs, vertex_indices bm = Some vs /\
                           index_count bm = List.length vs) added.
Proof.
  induction registry as [| [s labels] rest IH];
    intros w ann gii l b st0 log log' st H; simpl in H.
  - apply mret_ok in H as [-> _]. split; [constructor |].
    exists []. rewrite app_nil_r. repeat split. constructor.
  - apply mbind_ok in H as (st1 & log1 & Hb & H).
    destruct labels as [| label more].
    + apply surface_branch_ok in Hb
        as (ap & annot & gp & g & sv & vi & ts & stacked
            & _ & _ & _ & _ & _ & _ & _ & ->).
      destruct (IH _ _ _ _ _ _ _ _ _ H) as (Hall & added & Hbm & Hnames & Hsurf).
      split; [constructor; [reflexivity | exact Hall] |].
      simpl in Hbm. rewrite <- app_assoc in Hbm.
      eexists. split; [exact Hbm |]. simpl.
      split; [rewrite Hnames; reflexivity |].
      constructor; [| exact Hsurf]. simpl.
      repeat split. exists vi. auto.
    + apply lift_ok in Hb as [Hb _].
      destruct (volume_branch_raises l b s (label :: more) st0) as (e & He & _).
      congruence.
Qed.

Lemma completed_loop_is_surface_only_witness :
  structures_loop Demo.world Demo.annotation_files Demo.gii_files
    Demo.atlas Demo.bold Demo.cortex_only (initial_state 2) []
  = (Demo.cortex_log, Ok Demo.cortex_state)
  /\ Forall (fun entry => snd entry = []) Demo.cortex_only.
Proof.
  assert (H : structures_loop Demo.world Demo.annotation_files Demo.gii_files
                Demo.atlas Demo.bold Demo.cortex_only (initial_state 2) []
              = (Demo.cortex_log, Ok Demo.cortex_state))
    by (vm_compute; reflexivity).
  split; [exact H |].
  exact (proj1 (completed_loop_is_surface_only _ _ _ _ _ _ _ _ _ _ H)).
Defined.

(** ** Runs of the shipped interface *)

Lemma quiet_fetch_data w inputs : quiet (_fetch_data w inputs).
Proof.
  unfold _fetch_data. destruct (space_unsupported inputs); [apply quiet_mraise |].
  quiet_steps.
  match goal with |- quiet (match ?l with _ => _ end) => destruct l end;
    quiet_steps.
Qed.

(** X8. No run of [create_cifti_image], and so no run of the interface, returns
    or saves a file: each ends in an exception, and the events it adds to
    the log contain no save. *)
Theorem shipped_run_never_saves :
  (forall w bold_file label_file annotation_files gii_files volume_target
          surface_target tr download_link log,
      exists added e,
        create_cifti_image w bold_file label_file annotation_files gii_files
          volume_target surface_target tr download_link log
        = (log ++ added, Raise e) /\ saved_paths added = []) /\
  (forall w inputs log,
      exists added e,
        _run_interface w inputs log = (log ++ added, Raise e) /\
        saved_paths added = []).
Proof.
  assert (C : forall w bold_file label_file annotation_files gii_files volume_target
          surface_target tr download_link log,
      exists added e,
        create_cifti_image w bold_file label_file annotation_files gii_files
          volume_target surface_target tr download_link log
        = (log ++ added, Raise e) /\ saved_paths added = []).
  { intros w bf lf ann gii vt st tr dl log.
    destruct (create_cifti_image_always_raises w bf lf ann gii vt st tr dl log)
      as [e He].
    unfold create_cifti_image in *.
    destruct (create_cifti_image_run CIFTI_STRUCT_WITH_LABELS w bf lf ann gii
                vt st tr dl log) as (loads & Hq & [(e' & E) | (img & E)]).
    - exists loads, e'. auto.
    - rewrite E in He. discriminate. }
  split; [exact C |].
  intros w inputs log. unfold _run_interface, mbind.
  destruct (quiet_fetch_data w inputs log) as (d & Ed & Sd).
  destruct (_fetch_data w inputs log) as [log1 [[[ann lf] dl] | e]];
    cbn [fst] in Ed; subst log1.
  - destruct (C w (bold_file inputs) lf ann (gifti_files inputs)
                (volume_target inputs) (surface_target inputs) (TR inputs)
                (Some dl) (log ++ d)) as (added & e & E & Sa).
    exists (d ++ added), e. rewrite E, app_assoc, saved_paths_app, Sd, Sa. auto.
  - exists d, e. auto.
Qed.

(** ** [sorted] and the annotation files *)

Lemma ltb_leb (a b : string) : String.ltb a b = true -> str_le a b.
Proof.
  unfold str_le, String.ltb, String.leb.
  destruct (String.compare a b); intros H; congruence.
Qed.

Lemma not_ltb_leb (a b : string) : String.ltb a b = false -> str_le b a.
Proof.
  unfold str_le, String.ltb, String.leb. rewrite (String.compare_antisym b a).
  destruct (String.compare a b); simpl; intros H; congruence.
Qed.

Lemma insert_sorted_perm (s : string) (l : list string) :
  Permutation (s :: l) (insert_sorted s l).
Proof.
  induction l as [| x r IH]; simpl; [reflexivity |].
  destruct (String.ltb s x); [reflexivity |].
  rewrite perm_swap. constructor. exact IH.
Qed.

Lemma insert_sorted_hd (s y : string) (l : list string) :
  str_le y s -> HdRel str_le y l -> HdRel str_le y (insert_sorted s l).
Proof.
  intros Hys Hl. destruct l as [| x r]; simpl; [constructor; exact Hys |].
  destruct (String.ltb s x); constructor; [exact Hys |].
  inversion Hl; assumption.
Qed.

Lemma insert_sorted_sorted (s : string) (l : list string) :
  Sorted str_le l -> Sorted str_le (insert_sorted s l).
Proof.
  induction 1 as [| x r Hr IH Hhd]; simpl.
  - repeat constructor.
  - destruct (String.ltb s x) eqn:E.
    + constructor; [constructor; assumption |].
      constructor. apply ltb_leb; exact E.
    + constructor; [exact IH |].
      apply insert_sorted_hd; [apply not_ltb_leb; exact E | exact Hhd].
Qed.

Lemma sorted_spec (l : list string) :
  Permutation l (sorted l) /\ Sorted str_le (sorted l).
Proof.
  unfold sorted.
  assert (G : forall l acc, Sorted str_le acc ->
              Permutation (acc ++ l)
                (fold_left (fun acc s => insert_sorted s acc) l acc) /\
              Sorted str_le (fold_left (fun acc s => insert_sorted s acc) l acc)).
  { clear. induction l as [| s r IH]; intros acc Hacc; simpl.
    - rewrite app_nil_r. split; [reflexivity | exact Hacc].
    - destruct (IH (insert_sorted s acc) (insert_sorted_sorted _ _ Hacc)) as [Hp Hs].
      split; [| exact Hs].
      etransitivity; [| exact Hp].
      etransitivity; [| apply Permutation_app_tail; apply insert_sorted_perm].
      simpl. symmetry. apply Permutation_middle. }
  destruct (G l [] (Sorted_nil _)) as [Hp Hs]. simpl in Hp. auto.
Qed.

Lemma sorted_nil_iff (l : list string) : sorted l = [] <-> l = [].
Proof.
  destruct (sorted_spec l) as [Hp _]. split; intros H.
  - rewrite H in Hp. apply Permutation_sym, Permutation_nil in Hp. exact Hp.
  - subst. reflexivity.
Qed.

(** X9. Past the space test, [_fetch_data] raises [IOError] right after the
    search, before the atlas is fetched, exactly when the search finds no
    annotation file; the interface then ends the same way. *)
Theorem fetch_data_no_annotations :
  forall w inputs log,
    space_unsupported inputs = false ->
    (_fetch_data w inputs log
     = (log ++ [Globbed (os_path_join (subjects_dir inputs)
                           [surface_target inputs; "label"; "*h.aparc.annot"])],
        Raise IOError)
     <-> glob w (os_path_join (subjects_dir inputs)
                   [surface_target inputs; "label"; "*h.aparc.annot"]) = []) /\
    (glob w (os_path_join (subjects_dir inputs)
               [surface_target inputs; "label"; "*h.aparc.annot"]) = [] ->
     _run_interface w inputs log
     = (log ++ [Globbed (os_path_join (subjects_dir inputs)
                           [surface_target inputs; "label"; "*h.aparc.annot"])],
        Raise IOError)).
Proof.
  intros w inputs log Hg.
  set (pattern := os_path_join (subjects_dir inputs)
                    [surface_target inputs; "label"; "*h.aparc.annot"]).
  assert (E : glob w pattern = [] ->
              _fetch_data w inputs log = (log ++ [Globbed pattern], Raise IOError)).
  { intros H. unfold _fetch_data. rewrite Hg. fold pattern.
    unfold mbind at 1. unfold perform at 1. rewrite H. reflexivity. }
  split; [split; [| exact E] |].
  - intros H. apply sorted_nil_iff.
    destruct (sorted (glob w pattern)) as [| f fs] eqn:Es; [reflexivity |].
    exfalso. unfold _fetch_data in H. rewrite Hg in H. fold pattern in H.
    unfold mbind at 1 in H. unfold perform at 1 in H. rewrite Es in H.
    unfold mbind at 1 in H. unfold perform at 1 in H.
    destruct (get_dataset w "oasis_dkt31_mni152") as [template | e].
    + match type of H with
      | ?k ?l = _ =>
          assert (Q : quiet k) by quiet_steps;
          destruct (Q l) as (d & Ed & _); rewrite H in Ed
      end.
      cbn [fst] in Ed. rewrite <- !app_assoc in Ed.
      apply app_inv_head in Ed. discriminate.
    + inversion H as [[Hl He]]. rewrite <- app_assoc in Hl.
      apply app_inv_head in Hl. discriminate.
  - intros H. unfold _run_interface, mbind. rewrite (E H). reflexivity.
Qed.

Lemma fetch_data_no_annotations_witness :
  space_unsupported Demo.inputs = false /\
  _run_interface Demo.bare_world Demo.inputs []
  = ([] ++ [Globbed "/subjects/fsaverage5/label/*h.aparc.annot"], Raise IOError).
Proof.
  split; [reflexivity |].
  apply (proj2 (fetch_data_no_annotations Demo.bare_world Demo.inputs [] eq_refl)).
  reflexivity.
Defined.

(** X10. When [_fetch_data] returns, the space test has passed; the annotation
    files are the files the search found, in ascending order and at least
    one; the search and the atlas are the only things asked for; the label
    file lies in the atlas directory and the link is the project address
    followed by the first resource of the atlas. *)
Theorem fetch_data_result :
  forall w inputs log log' annotation_files label_file download_link,
    _fetch_data w inputs log
    = (log', Ok (annotation_files, label_file, download_link)) ->
    space_unsupported inputs = false /\
    Permutation
      (glob w (os_path_join (subjects_dir inputs)
                 [surface_target inputs; "label"; "*h.aparc.annot"]))
      annotation_files /\
    Sorted str_le annotation_files /\
    annotation_files <> [] /\
    log' = log ++ [Globbed (os_path_join (subjects_dir inputs)
                              [surface_target inputs; "label"; "*h.aparc.annot"]);
                   DatasetFetched "oasis_dkt31_mni152"] /\
    exists template resources resource,
      get_dataset w "oasis_dkt31_mni152" = Ok template /\
      label_file = os_path_join template [label_atlas_name] /\
      OSF_RESOURCES w "oasis_dkt31_mni152" = Some resources /\
      nth_error resources 0 = Some resource /\
      download_link
      = String.append (OSF_PROJECT_URL w) (String.append "/" resource).
Proof.
  intros w inputs log log' ann lf dl H.
  unfold _fetch_data in H.
  destruct (space_unsupported inputs) eqn:Hg; [inversion H |].
  set (pattern := os_path_join (subjects_dir inputs)
                    [surface_target inputs; "label"; "*h.aparc.annot"]) in *.
  apply mbind_ok in H as (found & log1 & Hf & H).
  apply perform_ok in Hf as [Hf ->]. inversion Hf; subst found.
  destruct (sorted_spec (glob w pattern)) as [Hperm Hsorted].
  destruct (sorted (glob w pattern)) as [| f fs] eqn:Es; [inversion H |].
  apply mbind_ok in H as (template & log2 & Ht & H).
  apply perform_ok in Ht as [Ht ->].
  apply mbind_ok in H as (resources & log3 & Hr & H).
  apply lift_ok in Hr as [Hr ->].
  apply mbind_ok in H as (resource & log4 & Hres & H).
  apply lift_ok in Hres as [Hres ->].
  apply mret_ok in H as [H ->]. inversion H; subst.
  split; [reflexivity |].
  split; [exact Hperm |]. split; [exact Hsorted |]. split; [discriminate |].
  split; [rewrite <- app_assoc; reflexivity |].
  exists template, resources, resource.
  destruct (OSF_RESOURCES w "oasis_dkt31_mni152") as [t |]; inversion Hr; subst.
  apply getitem_ok in Hres. auto.
Qed.

Lemma fetch_data_result_witness :
  _fetch_data Demo.world Demo.inputs []
  = ([Globbed "/subjects/fsaverage5/label/*h.aparc.annot";
      DatasetFetched "oasis_dkt31_mni152"],
     Ok (["lh.aparc.annot"; "rh.aparc.annot"], Demo.label_file,
         "https://files.osf.io/v1/resources/fvuh8/providers/osfstorage/5b0dbce20f461a000db8fa3d"))
  /\ Sorted str_le ["lh.aparc.annot"; "rh.aparc.annot"].
Proof.
  assert (H : _fetch_data Demo.world Demo.inputs []
    = ([Globbed "/subjects/fsaverage5/label/*h.aparc.annot";
        DatasetFetched "oasis_dkt31_mni152"],
       Ok (["lh.aparc.annot"; "rh.aparc.annot"], Demo.label_file,
           "https://files.osf.io/v1/resources/fvuh8/providers/osfstorage/5b0dbce20f461a000db8fa3d")))
    by (vm_compute; reflexivity).
  split; [exact H |].
  exact (proj1 (proj2 (proj2 (fetch_data_result _ _ _ _ _ _ _ H)))).
Defined.

(** ** The rows of the composite matrix *)

Lemma surface_branch_rows w annotation_files gii_files structure st log log' st'
  gii_path g :
  surface_branch w annotation_files gii_files structure st log = (log', Ok st') ->
  getitem gii_files 0 = Ok gii_path ->
  nb_load_gifti w gii_path = Ok g ->
  0 < nrows (bm_ts st) ->
  List.length (darrays g) = nrows (bm_ts st) /\
  nrows (bm_ts st') = nrows (bm_ts st) /\
  forall t data row,
    nth_error (darrays g) t = Some data ->
    nth_error (rows (bm_ts st)) t = Some row ->
    Forall2 (fun v x => nth_error data v = Some x)
      (flat_map vertex_list (brainmodels st)) row ->
    exists row',
      nth_error (rows (bm_ts st')) t = Some row' /\
      Forall2 (fun v x => nth_error data v = Some x)
        (flat_map vertex_list (brainmodels st')) row'.
Proof.
  intros H Hgp Hg Hpos.
  apply surface_branch_ok in H
    as (ap & annot & gp & g' & sv & vi & ts & stacked
        & _ & _ & Hgp' & Hg' & He & Hs & _ & ->).
  rewrite Hgp in Hgp'. inversion Hgp'; subst gp.
  rewrite Hg in Hg'. inversion Hg'; subst g'.
  pose proof (surface_extract_rows _ _ _ _ _ He) as Hrows.
  destruct (column_stack_block (bm_ts st) (List.length vi) ts) as (Hok & Hne & _).
  destruct (Nat.eq_dec (List.length ts) (nrows (bm_ts st))) as [Hlen | Hlen];
    [| rewrite (Hne Hlen) in Hs; discriminate].
  rewrite (Hok Hlen stacked Hs Hpos). simpl.
  split; [rewrite <- Hlen; eapply Forall2_length; eauto |].
  split; [unfold nrows; simpl; apply zip_rows_length; unfold nrows in Hlen; congruence |].
  intros t data row Hdata Hrow Hold.
  destruct (Forall2_nth _ _ _ _ _ Hrows Hdata) as (picked & Hp & Hpick).
  exists (row ++ picked). split; [apply zip_rows_nth; assumption |].
  rewrite flat_map_app. simpl. rewrite app_nil_r.
  apply Forall2_app; assumption.
Qed.

(** X12. With at least one time point, and a time series at position 0 with one
    frame per time point, row [t] of the matrix a completed loop leaves
    holds the values of frame [t] at the vertex indices of the brain
    models, entry after entry in their order. *)
Theorem composite_rows_from_source :
  forall registry w annotation_files gii_files label_data bold_data
         timepoints log log' st gii_path g,
    0 < timepoints ->
    structures_loop w annotation_files gii_files label_data bold_data registry
      (initial_state timepoints) log = (log', Ok st) ->
    getitem gii_files 0 = Ok gii_path ->
    nb_load_gifti w gii_path = Ok g ->
    List.length (darrays g) = timepoints ->
    forall t data,
      nth_error (darrays g) t = Some data ->
      exists row,
        nth_error (rows (bm_ts st)) t = Some row /\
        Forall2 (fun v x => nth_error data v = Some x)
          (flat_map vertex_list (brainmodels st)) row.
Proof.
  intros registry w ann gii l b T log log' st gp g Hpos H Hgp Hg Hlen t data Hdata.
  assert (G : forall registry st0 log0,
             structures_loop w ann gii l b registry st0 log0 = (log', Ok st) ->
             nrows (bm_ts st0) = T ->
             (exists row,
                 nth_error (rows (bm_ts st0)) t = Some row /\
                 Forall2 (fun v x => nth_error data v = Some x)
                   (flat_map vertex_list (brainmodels st0)) row) ->
             exists row,
               nth_error (rows (bm_ts st)) t = Some row /\
               Forall2 (fun v x => nth_error data v = Some x)
                 (flat_map vertex_list (brainmodels st)) row).
  { clear H registry log.
    induction registry as [| [s labels] rest IH]; simpl; intros st0 log0 H Hn Hrow.
    - apply mret_ok in H as [-> _]. exact Hrow.
    - apply mbind_ok in H as (st1 & log1 & Hb & H).
      destruct labels as [| label more].
      + destruct (surface_branch_rows _ _ _ _ _ _ _ _ _ _ Hb Hgp Hg) as (_ & Hn1 & Hstep);
          [lia |].
        destruct Hrow as (row & Hr & Hf).
        apply (IH _ _ H); [lia |].
        exact (Hstep t data row Hdata Hr Hf).
      + apply lift_ok in Hb as [Hb _].
        destruct (volume_branch_raises l b s (label :: more) st0) as (e & He & _).
        congruence. }
  apply (G registry (initial_state T) log H).
  - apply initial_state_shape.
  - exists []. simpl. split; [| constructor].
    assert (Ht : t < T).
    { rewrite <- Hlen. apply nth_error_Some. congruence. }
    clear - Ht. revert t Ht. induction T as [| T IH]; intros [| t] Ht; simpl;
      try lia; [reflexivity | apply IH; lia].
Qed.

Lemma composite_rows_from_source_witness :
  0 < 2 /\
  List.length (darrays Demo.lh_gii) = 2 /\
  exists row,
    nth_error (rows (bm_ts Demo.cortex_state)) 1 = Some row /\
    Forall2 (fun v x => nth_error [20; 21; 22; 23; 24]%Z v = Some x)
      (flat_map vertex_list (brainmodels Demo.cortex_state)) row.
Proof.
  split; [lia |]. split; [reflexivity |].
  apply (composite_rows_from_source Demo.cortex_only Demo.world
           Demo.annotation_files Demo.gii_files Demo.atlas Demo.bold 2 []
           Demo.cortex_log Demo.cortex_state "lh.func.gii" Demo.lh_gii);
    first [lia | vm_compute; reflexivity].
Defined.

(** ** The block of a label *)


